(** * City-Council-Tracker: vote filtering, tallies and case studies

    A shallow embedding of the in-memory computations of the dashboard:

    - [VotesAnalysis.applyFilters]   (components/votes/VotesAnalysis.tsx)
    - [VotesKPIs.fetchStats]         (components/votes/VotesKPIs.tsx)
    - [MemberProfile.fetchMemberData] and [MemberProfile.approvalRate]
                                     (the member profile component)
    - [MembersList.votingStats] and [MembersList.recentVotes]
                                     (components/members/MembersList.tsx)
    - [CaseStudiesList.agendaItemGroups] and [CaseStudiesList.studies]
                                     (the case-studies component)

    The rows handed over by the database client are the input; the
    queries themselves are outside the embedding.

    Modelling conventions.
    - A value that may be [null]/[undefined] is an [option]; optional
      chaining [a?.b] is the bind of the option monad.
    - Strings are [string]; [toLowerCase] lowers the letters A..Z, which
      is what the runtime does on ASCII text.
    - Counts are [nat].  Where the code divides, the IEEE-754 binary64
      operations of [SpecFloat] are used, except for halving, which is
      exact and is written over [Q].
    - A plain object used as a dictionary is a [gmap] over its own string
      keys.  In the category breakdown a read of a missing key falls
      through to the members inherited from [Object.prototype]
      ([Js.inherited]).  In the case-study grouping a title naming such a
      member, on which the reducer throws, and the enumeration order of
      [Object.values] are outside the model. *)

From Stdlib Require Import ZArith QArith String Ascii List Lia.
From Stdlib Require Import Floats.SpecFloat.
From stdpp Require Import base option list gmap strings fin_maps pretty sorting.

Local Open Scope string_scope.

(** ** Runtime helpers *)

Module Js.

(** [ToBoolean] on a string: only the empty string is falsy. *)
Definition truthy (s : string) : bool :=
  match s with
  | EmptyString => false
  | String _ _ => true
  end.

(** [ToBoolean] on a possibly undefined string. *)
Definition truthy_opt (o : option string) : bool :=
  match o with
  | Some s => truthy s
  | None => false
  end.

(** [ToBoolean] on a possibly undefined boolean. *)
Definition to_boolean (o : option bool) : bool :=
  match o with
  | Some b => b
  | None => false
  end.

(** [o || d] for a possibly undefined string [o] and a string [d]. *)
Definition or_default (o : option string) (d : string) : string :=
  match o with
  | Some s => if truthy s then s else d
  | None => d
  end.

(** [o || p] where both sides may be undefined. *)
Definition or_else (o p : option string) : option string :=
  if truthy_opt o then o else p.

Definition lower_ascii (c : ascii) : ascii :=
  let n := nat_of_ascii c in
  if (65 <=? n)%nat && (n <=? 90)%nat then ascii_of_nat (n + 32) else c.

(** [String.prototype.toLowerCase]. *)
Fixpoint toLowerCase (s : string) : string :=
  match s with
  | EmptyString => EmptyString
  | String c s' => String (lower_ascii c) (toLowerCase s')
  end.

(** [String.prototype.includes]: [sub] occurs somewhere in [s]. *)
Fixpoint includes (s sub : string) : bool :=
  if String.prefix sub s then true
  else match s with
       | EmptyString => false
       | String _ s' => includes s' sub
       end.

(** Strict equality between a possibly undefined string and a string. *)
Definition strict_eq (o : option string) (s : string) : bool :=
  match o with
  | Some t => String.eqb t s
  | None => false
  end.

(** *** Numbers: binary64 *)

Definition prec : Z := 53.
Definition emax : Z := 1024.

(** The double that holds a count. *)
Definition Number (n : nat) : spec_float :=
  binary_normalize prec emax (Z.of_nat n) 0 false.

Definition div (x y : spec_float) : spec_float := SFdiv prec emax x y.
Definition mul (x y : spec_float) : spec_float := SFmul prec emax x y.

(** [Math.round]: the nearest integer, ties towards plus infinity,
    computed exactly from the mantissa and exponent.  [None] stands for
    a result that is not a finite number (NaN or an infinity). *)
Definition Math_round (x : spec_float) : option Z :=
  match x with
  | S754_zero _ => Some 0%Z
  | S754_finite s m e =>
      let n := if s then Z.neg m else Z.pos m in
      Some (if (0 <=? e)%Z then (n * 2 ^ e)%Z
            else ((2 * n + 2 ^ (- e)) / 2 ^ (1 - e))%Z)
  | S754_infinity _ | S754_nan => None
  end.

(** The property names every plain object inherits from
    [Object.prototype]; each names a function or an object, so a read of
    one of them on [{}] is truthy. *)
Definition Object_prototype_keys : list string :=
  ["constructor"; "__defineGetter__"; "__defineSetter__"; "hasOwnProperty";
   "__lookupGetter__"; "__lookupSetter__"; "isPrototypeOf";
   "propertyIsEnumerable"; "toString"; "valueOf"; "__proto__";
   "toLocaleString"].

Definition inherited (key : string) : bool :=
  existsb (String.eqb key) Object_prototype_keys.

(** A numeric property that may never have been initialised. *)
Inductive prop_value :=
| Undefined
| NaN
| Num (n : nat).

(** [x++] on such a property: [undefined + 1] and [NaN + 1] are [NaN]. *)
Definition incr (v : prop_value) : prop_value :=
  match v with
  | Num n => Num (S n)
  | Undefined | NaN => NaN
  end.

End Js.

(** ** Rows returned by the joined vote query *)

Inductive VoteValue := YEA | NAY | ABSTAIN | ABSENT.

Global Instance VoteValue_eq_dec : EqDecision VoteValue.
Proof. solve_decision. Defined.

(** The enum label, as the database client delivers it. *)
Definition vote_value_string (v : VoteValue) : string :=
  match v with
  | YEA => "YEA"
  | NAY => "NAY"
  | ABSTAIN => "ABSTAIN"
  | ABSENT => "ABSENT"
  end.

Record Meeting := {
  meeting_date : option string;
  meeting_title : option string
}.

Record AgendaItem := {
  item_title : option string;
  item_category : option string;
  item_tags : option (list string);
  item_meetings : option Meeting
}.

Record CouncilMember := {
  member_name : option string;
  member_title : option string
}.

(** One row of [votes] with its joins; a join that found nothing, and a
    column the query did not select, is [None]. *)
Record VoteRecord := {
  id : string;
  vote_value : VoteValue;
  created_at : option string;
  source_name : option string;
  agenda_items : option AgendaItem;
  council_members : option CouncilMember
}.

(** The [filters] prop; a field that was never set is [None]. *)
Record Filters := {
  search : option string;
  category : option string;
  member : option string;
  voteValue : option string
}.

(** The default value of the prop. *)
Definition no_filters : Filters :=
  {| search := Some ""; category := Some ""; member := Some "";
     voteValue := Some "" |}.

(** The four tallies kept in component state. *)
Record Stats := {
  total : nat;
  yea : nat;
  nay : nat;
  abstain : nat
}.

(** [votes.filter(v => v.vote_value === value).length] *)
Definition tally (value : VoteValue) (votes : list VoteRecord) : nat :=
  length (filter (λ v, vote_value v = value) votes).

(** ** components/votes/VotesAnalysis.tsx *)

Module VotesAnalysis.

(** The callback of the search filter. *)
Definition search_callback (searchLower : string) (vote : VoteRecord) : bool :=
  Js.to_boolean
    ((λ t, Js.includes (Js.toLowerCase t) searchLower)
       <$> (agenda_items vote ≫= item_title))
  || Js.to_boolean
    ((λ n, Js.includes (Js.toLowerCase n) searchLower)
       <$> (council_members vote ≫= member_name))
  || Js.to_boolean
    ((λ c, Js.includes (Js.toLowerCase c) searchLower)
       <$> (agenda_items vote ≫= item_category))
  || Js.to_boolean
    ((λ tags, existsb (λ tag, Js.includes (Js.toLowerCase tag) searchLower) tags)
       <$> (agenda_items vote ≫= item_tags)).

(** The callback of the category filter. *)
Definition category_callback (wanted : string) (vote : VoteRecord) : bool :=
  Js.strict_eq (Js.toLowerCase <$> (agenda_items vote ≫= item_category))
               (Js.toLowerCase wanted).

(** The callback of the member filter. *)
Definition member_callback (wanted : string) (vote : VoteRecord) : bool :=
  Js.to_boolean
    ((λ n, Js.includes (Js.toLowerCase n) (Js.toLowerCase wanted))
       <$> (council_members vote ≫= member_name)).

(** The callback of the vote value filter. *)
Definition voteValue_callback (wanted : string) (vote : VoteRecord) : bool :=
  String.eqb (vote_value_string (vote_value vote)) wanted.

(** [if (criterion) { data = data.filter(callback) }] *)
Definition filter_if (criterion : option string)
    (callback : string -> VoteRecord -> bool)
    (data : list VoteRecord) : list VoteRecord :=
  match criterion with
  | Some s => if Js.truthy s then filter (λ vote, callback s vote) data else data
  | None => data
  end.

(** [applyFilters] reads the props [filters] and the state [allVotes];
    its result is what it stores in the state [votes]. *)
Definition applyFilters (filters : Filters) (allVotes : list VoteRecord)
    : list VoteRecord :=
  let filteredData := allVotes in
  let filteredData :=
    filter_if (search filters)
              (λ s, search_callback (Js.toLowerCase s)) filteredData in
  let filteredData := filter_if (category filters) category_callback filteredData in
  let filteredData := filter_if (member filters) member_callback filteredData in
  let filteredData := filter_if (voteValue filters) voteValue_callback filteredData in
  filteredData.


(** The condition under which the results header appends "(filtered)". *)
Definition isFiltered (filters : Filters) : bool :=
  Js.truthy_opt (search filters) || Js.truthy_opt (category filters)
  || Js.truthy_opt (member filters) || Js.truthy_opt (voteValue filters).

(** The tag row of a vote card: nothing when the tags are missing or
    empty; otherwise [tags.slice(0, 5)] and, when there are more than
    five tags, the number in the "+N more" marker. *)
Definition tagRow (vote : VoteRecord) : option (list string * option nat) :=
  match agenda_items vote ≫= item_tags with
  | Some tags =>
      if (0 <? length tags)%nat
      then Some (take 5 tags,
                 if (5 <? length tags)%nat then Some (length tags - 5) else None)
      else None
  | None => None
  end.

End VotesAnalysis.

(** ** components/votes/VotesKPIs.tsx *)

Module VotesKPIs.

(** The filter block of [fetchStats]: the same four guarded filters,
    with the same callbacks, applied to [allVotes || []]. *)
Definition filteredVotes (filters : Filters)
    (allVotes : option (list VoteRecord)) : list VoteRecord :=
  let filteredVotes := default [] allVotes in
  let filteredVotes :=
    VotesAnalysis.filter_if (search filters)
      (λ s, VotesAnalysis.search_callback (Js.toLowerCase s)) filteredVotes in
  let filteredVotes :=
    VotesAnalysis.filter_if (category filters)
      VotesAnalysis.category_callback filteredVotes in
  let filteredVotes :=
    VotesAnalysis.filter_if (member filters)
      VotesAnalysis.member_callback filteredVotes in
  let filteredVotes :=
    VotesAnalysis.filter_if (voteValue filters)
      VotesAnalysis.voteValue_callback filteredVotes in
  filteredVotes.

(** The tallies of [fetchStats] over the filtered votes. *)
Definition calculate (filteredVotes : list VoteRecord) : Stats :=
  {| total := length filteredVotes;
     yea := tally YEA filteredVotes;
     nay := tally NAY filteredVotes;
     abstain := tally ABSTAIN filteredVotes |}.

Definition fetchStats (filters : Filters)
    (allVotes : option (list VoteRecord)) : Stats :=
  calculate (filteredVotes filters allVotes).

(** [Math.round((count / total) * 100)] *)
Definition percent (count total : nat) : option Z :=
  Js.Math_round
    (Js.mul (Js.div (Js.Number count) (Js.Number total)) (Js.Number 100)).

(** A percentage line of a card: rendered only under the guard
    [stats.total > 0]; [None] when nothing is rendered. *)
Definition rendered_percent (stats : Stats) (count : nat) : option (option Z) :=
  if (0 <? total stats)%nat then Some (percent count (total stats)) else None.

End VotesKPIs.

(** ** The member profile component *)

Module MemberProfile.

(** One entry of [stats.categories].  The four counters are created
    at zero; [absent] is the property the counter update touches for an
    ABSENT vote, which nothing initialises. *)
Record CategoryStats := {
  cat_total : nat;
  cat_yea : nat;
  cat_nay : nat;
  cat_abstain : nat;
  cat_absent : Js.prop_value
}.

Record VoteStats := {
  stats : Stats;
  categories : gmap string CategoryStats
}.

Definition new_category : CategoryStats :=
  {| cat_total := 0; cat_yea := 0; cat_nay := 0; cat_abstain := 0;
     cat_absent := Js.Undefined |}.

(** [vote.agenda_items?.category || 'Unknown'] *)
Definition category_of (vote : VoteRecord) : string :=
  Js.or_default (agenda_items vote ≫= item_category) "Unknown".

(** [entry.total++] *)
Definition incr_total (c : CategoryStats) : CategoryStats :=
  {| cat_total := S (cat_total c); cat_yea := cat_yea c; cat_nay := cat_nay c;
     cat_abstain := cat_abstain c; cat_absent := cat_absent c |}.

(** [entry[vote_value.toLowerCase()]++] *)
Definition incr_value (value : VoteValue) (c : CategoryStats) : CategoryStats :=
  match value with
  | YEA =>
      {| cat_total := cat_total c; cat_yea := S (cat_yea c); cat_nay := cat_nay c;
         cat_abstain := cat_abstain c; cat_absent := cat_absent c |}
  | NAY =>
      {| cat_total := cat_total c; cat_yea := cat_yea c; cat_nay := S (cat_nay c);
         cat_abstain := cat_abstain c; cat_absent := cat_absent c |}
  | ABSTAIN =>
      {| cat_total := cat_total c; cat_yea := cat_yea c; cat_nay := cat_nay c;
         cat_abstain := S (cat_abstain c); cat_absent := cat_absent c |}
  | ABSENT =>
      {| cat_total := cat_total c; cat_yea := cat_yea c; cat_nay := cat_nay c;
         cat_abstain := cat_abstain c; cat_absent := Js.incr (cat_absent c) |}
  end.

(** The body of the [forEach] that builds the category breakdown.
    [categories] starts as [{}]: the read [categories[category]] finds an
    own entry or else a member inherited from [Object.prototype], which
    is truthy.  In the second case no entry is created and the two
    increments write to the inherited object, so the own entries, which
    are what [Object.entries] lists, stay as they are. *)
Definition count_vote (categories : gmap string CategoryStats)
    (vote : VoteRecord) : gmap string CategoryStats :=
  let category := category_of vote in
  let categories :=
    match categories !! category with
    | Some _ => categories
    | None =>
        if Js.inherited category then categories
        else <[category := new_category]> categories
    end in
  let categories := alter incr_total category categories in
  alter (incr_value (vote_value vote)) category categories.

Definition categoryBreakdown (votesData : option (list VoteRecord))
    : gmap string CategoryStats :=
  foldl count_vote ∅ (default [] votesData).

(** The statistics computed by [fetchMemberData]. *)
Definition fetchMemberData (votesData : option (list VoteRecord)) : VoteStats :=
  let votes := default [] votesData in
  {| stats := {| total := length votes;
                 yea := tally YEA votes;
                 nay := tally NAY votes;
                 abstain := tally ABSTAIN votes |};
     categories := categoryBreakdown votesData |}.

(** [total > 0 ? Math.round((yea / total) * 100) : 0] *)
Definition rate (yea total : nat) : option Z :=
  if (0 <? total)%nat then VotesKPIs.percent yea total else Some 0%Z.

Definition approvalRate (s : VoteStats) : option Z :=
  rate (yea (stats s)) (total (stats s)).

Definition categoryApprovalRate (categoryStats : CategoryStats) : option Z :=
  rate (cat_yea categoryStats) (cat_total categoryStats).

(** The sum of the [total] fields over all entries. *)
Definition sum_totals (categories : gmap string CategoryStats) : nat :=
  map_fold (λ _ c acc, cat_total c + acc) 0 categories.

(** The [total] shown for a label; a label without an entry shows none. *)
Definition total_of (categories : gmap string CategoryStats) (label : string) : nat :=
  from_option cat_total 0 (categories !! label).

(** [entries.sort(([, a], [, b]) => b.total - a.total)]: the sort is
    stable, so with this comparator its result is the one of inserting
    the entries from the right, each before the first entry whose total
    does not exceed its own. *)
Fixpoint insert_by_total (entry : string * CategoryStats)
    (sorted : list (string * CategoryStats)) : list (string * CategoryStats) :=
  match sorted with
  | [] => [entry]
  | other :: rest =>
      if (cat_total other.2 <=? cat_total entry.2)%nat
      then entry :: other :: rest
      else other :: insert_by_total entry rest
  end.

Definition sortByTotal (entries : list (string * CategoryStats))
    : list (string * CategoryStats) :=
  foldr insert_by_total [] entries.

End MemberProfile.

(** ** components/members/MembersList.tsx *)

Module MembersList.

Record VotingStats := {
  total_votes : nat;
  yea_votes : nat;
  nay_votes : nat;
  abstain_votes : nat;
  yea_percentage : option Z;
  voting_frequency : nat
}.

Record RecentVote := {
  recent_id : string;
  recent_vote_value : VoteValue;
  agenda_item_title : string;
  date : string;
  recent_category : string
}.

(** The statistics of one member when the vote query succeeded. *)
Definition votingStats (votesData : option (list VoteRecord)) : VotingStats :=
  let votes := default [] votesData in
  let totalVotes := length votes in
  let yeaVotes := tally YEA votes in
  let nayVotes := tally NAY votes in
  let abstainVotes := tally ABSTAIN votes in
  let yeaPercentage := MemberProfile.rate yeaVotes totalVotes in
  {| total_votes := totalVotes;
     yea_votes := yeaVotes;
     nay_votes := nayVotes;
     abstain_votes := abstainVotes;
     yea_percentage := yeaPercentage;
     voting_frequency := totalVotes |}.

(** The statistics of one member when the vote query failed. *)
Definition votingStatsOnError : VotingStats :=
  {| total_votes := 0; yea_votes := 0; nay_votes := 0; abstain_votes := 0;
     yea_percentage := Some 0%Z; voting_frequency := 0 |}.

Definition recentVote (vote : VoteRecord) : RecentVote :=
  {| recent_id := id vote;
     recent_vote_value := vote_value vote;
     agenda_item_title := Js.or_default (agenda_items vote ≫= item_title) "Unknown";
     date :=
       Js.or_default ((agenda_items vote ≫= item_meetings) ≫= meeting_date)
                     "Unknown";
     recent_category :=
       Js.or_default (agenda_items vote ≫= item_category) "General" |}.

(** [votesData?.slice(0, 5).map(...) || []] *)
Definition recentVotes (votesData : option (list VoteRecord)) : list RecentVote :=
  default [] ((λ votes, recentVote <$> take 5 votes) <$> votesData).

End MembersList.

(** ** The case-studies component *)

Module CaseStudiesList.

Inductive ImpactLevel := high | medium | low.

(** An element of a group's [votes] array. *)
Record GroupVote := {
  gv_member_name : string;
  gv_vote_value : VoteValue;
  gv_title : string
}.

(** A value of the [groups] dictionary built by the [reduce]. *)
Record Group := {
  group_title : string;
  group_category : string;
  group_date : option string;
  group_tags : list string;
  group_votes : list GroupVote
}.

Record CaseStudy := {
  study_id : string;
  title : string;
  description : string;
  study_category : string;
  date : option string;
  outcome : string;
  impact_level : ImpactLevel;
  votes : list GroupVote;
  tags : list string
}.

(** [vote.agenda_items?.title || 'Unknown'] *)
Definition agendaTitle (vote : VoteRecord) : string :=
  Js.or_default (agenda_items vote ≫= item_title) "Unknown".

(** The group created when a title is met for the first time. *)
Definition new_group (vote : VoteRecord) : Group :=
  {| group_title := agendaTitle vote;
     group_category := Js.or_default (agenda_items vote ≫= item_category) "General";
     group_date :=
       Js.or_else ((agenda_items vote ≫= item_meetings) ≫= meeting_date)
                  (created_at vote);
     group_tags := default [] (agenda_items vote ≫= item_tags);
     group_votes := [] |}.

Definition group_vote (vote : VoteRecord) : GroupVote :=
  {| gv_member_name := Js.or_default (council_members vote ≫= member_name) "Unknown";
     gv_vote_value := vote_value vote;
     gv_title := Js.or_default (council_members vote ≫= member_title) "" |}.

(** [group.votes.push(v)] *)
Definition push (v : GroupVote) (g : Group) : Group :=
  {| group_title := group_title g;
     group_category := group_category g;
     group_date := group_date g;
     group_tags := group_tags g;
     group_votes := group_votes g ++ [v] |}.

(** The reducer. *)
Definition add_vote (groups : gmap string Group) (vote : VoteRecord)
    : gmap string Group :=
  let agendaTitle := agendaTitle vote in
  let groups :=
    match groups !! agendaTitle with
    | None => <[agendaTitle := new_group vote]> groups
    | Some _ => groups
    end in
  alter (push (group_vote vote)) agendaTitle groups.

(** [votesData?.reduce(reducer, {})], then [... || {}]. *)
Definition agendaItemGroups (votesData : option (list VoteRecord))
    : gmap string Group :=
  default ∅ (foldl add_vote ∅ <$> votesData).

(** [yeaVotes > totalVotes / 2]; halving a count is exact. *)
Definition more_than_half (yeaVotes totalVotes : nat) : bool :=
  negb (Qle_bool (inject_Z (Z.of_nat yeaVotes))
                 (inject_Z (Z.of_nat totalVotes) / 2)).

(** The callback that turns a group into a case study. *)
Definition toCaseStudy (group : Group) : CaseStudy :=
  let yeaVotes :=
    length (filter (λ v, gv_vote_value v = YEA) (group_votes group)) in
  let totalVotes := length (group_votes group) in
  let outcome :=
    if more_than_half yeaVotes totalVotes then "Approved" else "Denied" in
  {| study_id := group_title group;
     title := group_title group;
     description :=
       "Council vote on " +:+ group_title group +:+ " with "
         +:+ pretty totalVotes +:+ " members participating.";
     study_category := group_category group;
     date := group_date group;
     outcome := outcome;
     impact_level :=
       if (7 <=? totalVotes)%nat then high
       else if (5 <=? totalVotes)%nat then medium else low;
     votes := group_votes group;
     tags := group_tags group |}.

(** [Object.values(groups).map(callback)], before the featured slice. *)
Definition studies (votesData : option (list VoteRecord)) : list CaseStudy :=
  (λ entry, toCaseStudy entry.2) <$> map_to_list (agendaItemGroups votesData).

End CaseStudiesList.

(** ** components/votes/VotesFilter.tsx *)

Module VotesFilter.

(** [{ ...filters, [key]: value }].  Only the four criteria are ever
    read; a property written under another key is not kept. *)
Definition handleFilterChange (key value : string) (filters : Filters) : Filters :=
  if String.eqb key "search" then
    {| search := Some value; category := category filters;
       member := member filters; voteValue := voteValue filters |}
  else if String.eqb key "category" then
    {| search := search filters; category := Some value;
       member := member filters; voteValue := voteValue filters |}
  else if String.eqb key "member" then
    {| search := search filters; category := category filters;
       member := Some value; voteValue := voteValue filters |}
  else if String.eqb key "voteValue" then
    {| search := search filters; category := category filters;
       member := member filters; voteValue := Some value |}
  else filters.

Definition clearFilters : Filters :=
  {| search := Some ""; category := Some ""; member := Some "";
     voteValue := Some "" |}.

End VotesFilter.

(** ** components/members/MemberProfileCard.tsx *)

Module MemberProfileCard.

(** [truncateText]; [MemberCard.truncateBio] has the same body. *)
Definition truncateText (text : string) (maxLength : nat) : string :=
  if (String.length text <=? maxLength)%nat then text
  else String.substring 0 maxLength text +:+ "...".

(** The default of the second parameter. *)
Definition defaultMaxLength : nat := 120.

(** The guard of the "Read More" / "Show Less" button. *)
Definition showsToggle (bio : string) : bool :=
  (120 <? String.length bio)%nat.

(** The biography paragraph. *)
Definition bioText (showFullBio : bool) (bio : string) : string :=
  if showFullBio then bio else truncateText bio defaultMaxLength.

End MemberProfileCard.

(** ** The contract, in the words of the specification *)

Module Spec.

(** [needle] occurs in [text] as a substring. *)
Definition contains (text needle : string) : Prop :=
  ∃ before after, text = before +:+ needle +:+ after.

(** Case-insensitive substring match; a missing text matches nothing. *)
Definition ci_contains (text : option string) (needle : string) : Prop :=
  ∃ t, text = Some t ∧ contains (Js.toLowerCase t) (Js.toLowerCase needle).

(** Case-insensitive exact match; a missing text matches nothing. *)
Definition ci_equal (text : option string) (wanted : string) : Prop :=
  ∃ t, text = Some t ∧ Js.toLowerCase t = Js.toLowerCase wanted.

(** The search dimension: any of title, member name, category, a tag. *)
Definition search_matches (needle : string) (r : VoteRecord) : Prop :=
  ci_contains (agenda_items r ≫= item_title) needle
  ∨ ci_contains (council_members r ≫= member_name) needle
  ∨ ci_contains (agenda_items r ≫= item_category) needle
  ∨ ∃ tags tag, agenda_items r ≫= item_tags = Some tags
                ∧ tag ∈ tags ∧ ci_contains (Some tag) needle.

Definition category_matches (wanted : string) (r : VoteRecord) : Prop :=
  ci_equal (agenda_items r ≫= item_category) wanted.

Definition member_matches (wanted : string) (r : VoteRecord) : Prop :=
  ci_contains (council_members r ≫= member_name) wanted.

Definition outcome_matches (wanted : string) (r : VoteRecord) : Prop :=
  vote_value_string (vote_value r) = wanted.

(** A criterion constrains only when it is supplied and non-empty. *)
Definition supplied (criterion : option string) (s : string) : Prop :=
  criterion = Some s ∧ s ≠ "".

Definition unconstrained (criterion : option string) : Prop :=
  criterion = None ∨ criterion = Some "".

(** A record passes when it meets every supplied criterion. *)
Definition passes (filters : Filters) (r : VoteRecord) : Prop :=
  (∀ s, supplied (search filters) s → search_matches s r)
  ∧ (∀ s, supplied (category filters) s → category_matches s r)
  ∧ (∀ s, supplied (member filters) s → member_matches s r)
  ∧ (∀ s, supplied (voteValue filters) s → outcome_matches s r).

(** The four criteria dimensions. *)
Inductive Dimension := BySearch | ByCategory | ByMember | ByOutcome.

(** [{...filters, d: v}] *)
Definition with_criterion (d : Dimension) (v : string) (f : Filters) : Filters :=
  match d with
  | BySearch =>
      {| search := Some v; category := category f; member := member f;
         voteValue := voteValue f |}
  | ByCategory =>
      {| search := search f; category := Some v; member := member f;
         voteValue := voteValue f |}
  | ByMember =>
      {| search := search f; category := category f; member := Some v;
         voteValue := voteValue f |}
  | ByOutcome =>
      {| search := search f; category := category f; member := member f;
         voteValue := Some v |}
  end.

(** The criteria with a single dimension set. *)
Definition only (d : Dimension) (v : string) : Filters :=
  with_criterion d v no_filters.

(** The number of records of [R] whose outcome is [v]. *)
Fixpoint count_outcome (v : VoteValue) (R : list VoteRecord) : nat :=
  match R with
  | [] => 0
  | r :: R' => (if decide (vote_value r = v) then 1 else 0) + count_outcome v R'
  end.

(** [round(100 * count / total)], halves rounded up, over the integers. *)
Definition half_up_percent (count total : nat) : Z :=
  ((200 * Z.of_nat count + Z.of_nat total) / (2 * Z.of_nat total))%Z.

End Spec.

(** ** Auxiliary definitions for the proofs *)

(** What one guarded filter keeps. *)
Definition guard (criterion : option string)
    (callback : string -> VoteRecord -> bool) (vote : VoteRecord) : bool :=
  match criterion with
  | Some s => if Js.truthy s then callback s vote else true
  | None => true
  end.

(** What the four guarded filters keep together. *)
Definition keeps (filters : Filters) (vote : VoteRecord) : bool :=
  guard (search filters)
        (λ s, VotesAnalysis.search_callback (Js.toLowerCase s)) vote
  && guard (category filters) VotesAnalysis.category_callback vote
  && guard (member filters) VotesAnalysis.member_callback vote
  && guard (voteValue filters) VotesAnalysis.voteValue_callback vote.

(** A vote row with the given outcome, agenda item and member name. *)
Definition row (v : VoteValue) (agenda : option AgendaItem) (who : option string)
    : VoteRecord :=
  {| id := ""; vote_value := v; created_at := None; source_name := None;
     agenda_items := agenda;
     council_members :=
       Some {| member_name := who; member_title := None |} |}.

(** An agenda item with the given title, category and tags. *)
Definition item (t : string) (c : option string) (tags : list string) : AgendaItem :=
  {| item_title := Some t; item_category := c; item_tags := Some tags;
     item_meetings := None |}.

(** A group after the votes [vs] have been pushed in turn. *)
Definition extend (g : CaseStudiesList.Group) (vs : list CaseStudiesList.GroupVote)
    : CaseStudiesList.Group :=
  {| CaseStudiesList.group_title := CaseStudiesList.group_title g;
     CaseStudiesList.group_category := CaseStudiesList.group_category g;
     CaseStudiesList.group_date := CaseStudiesList.group_date g;
     CaseStudiesList.group_tags := CaseStudiesList.group_tags g;
     CaseStudiesList.group_votes := (CaseStudiesList.group_votes g ++ vs)%list |}.

(** The records of [R] filed under the agenda title [t]. *)
Definition titled (t : string) (R : list VoteRecord) : list VoteRecord :=
  filter (λ r, CaseStudiesList.agendaTitle r = t) R.

(** The sum of a measure over the values of a dictionary. *)
Definition map_sum {A} (measure : A → nat) (m : gmap string A) : nat :=
  map_fold (λ _ x acc, measure x + acc) 0 m.

(** A category entry after the votes [votes] have been counted in it. *)
Definition count_all (c : MemberProfile.CategoryStats) (votes : list VoteRecord)
    : MemberProfile.CategoryStats :=
  foldl (λ c vote,
           MemberProfile.incr_value (vote_value vote) (MemberProfile.incr_total c))
        c votes.

(** The records of [R] whose category label is no inherited member. *)
Definition counted (R : list VoteRecord) : list VoteRecord :=
  filter (λ r, Js.inherited (MemberProfile.category_of r) = false) R.

(** No own key of the dictionary names an inherited member. *)
Definition own_only {A} (m : gmap string A) : Prop :=
  ∀ key, is_Some (m !! key) → Js.inherited key = false.

(** The records of [R] counted under the category label [label]. *)
Definition labelled (label : string) (R : list VoteRecord) : list VoteRecord :=
  filter (λ r, MemberProfile.category_of r = label) R.

(** The rate is the half-up rounded exact percentage or one below it,
    and lies between 0 and 100. *)
Definition rate_close (yea total : nat) : bool :=
  match MemberProfile.rate yea total with
  | Some p =>
      ((p =? Spec.half_up_percent yea total)%Z
       || (p =? Spec.half_up_percent yea total - 1)%Z)
      && (0 <=? p)%Z && (p <=? 100)%Z
  | None => false
  end.

(** [rate_close] for every total from 1 to [bound] and every count up to
    the total. *)
Definition rates_close_upto (bound : nat) : bool :=
  forallb (λ total, forallb (λ yea, rate_close yea total) (seq 0 (S total)))
          (seq 1 bound).

(** ** Strings *)

Lemma truthy_nonempty s : Js.truthy s = true ↔ s ≠ "".
Proof. destruct s; simpl; split; congruence. Qed.

Lemma append_empty s : "" +:+ s = s.
Proof. reflexivity. Qed.

Lemma append_String c a b : String c a +:+ b = String c (a +:+ b).
Proof. reflexivity. Qed.

Lemma prefix_append a b : String.prefix a b = true ↔ ∃ rest, b = a +:+ rest.
Proof.
  revert b. induction a as [|c a IH]; intros [|d b]; simpl.
  - split; [intros _; by exists "" | done].
  - split; [intros _; by exists (String d b) | done].
  - split; [done | intros [rest H]; discriminate H].
  - setoid_rewrite append_String.
    destruct (Ascii.ascii_dec c d) as [->|Hne].
    + rewrite IH. split; intros [rest H]; exists rest; congruence.
    + split; [done | intros [rest H]; congruence].
Qed.

Lemma includes_unfold s sub :
  Js.includes s sub =
    if String.prefix sub s then true
    else match s with
         | EmptyString => false
         | String _ s' => Js.includes s' sub
         end.
Proof. by destruct s. Qed.

Lemma includes_contains s sub : Js.includes s sub = true ↔ Spec.contains s sub.
Proof.
  unfold Spec.contains. split.
  - induction s as [|c s IH]; rewrite includes_unfold;
      destruct (String.prefix sub _) eqn:Hp.
    + intros _. apply prefix_append in Hp as [rest Hp]. by exists "", rest.
    + done.
    + intros _. apply prefix_append in Hp as [rest Hp]. by exists "", rest.
    + intros H. destruct (IH H) as (b & a & ->). by exists (String c b), a.
  - intros (b & a & ->). induction b as [|c b IH]; rewrite includes_unfold.
    + rewrite append_empty.
      assert (String.prefix sub (sub +:+ a) = true) as ->; [|done].
      apply prefix_append. by exists a.
    + rewrite append_String.
      destruct (String.prefix sub (String c (b +:+ sub +:+ a))); [done | exact IH].
Qed.

(** ** The filter block *)

Lemma filter_all {A} (P : A → Prop) `{∀ x, Decision (P x)} (l : list A) :
  (∀ x, P x) → filter P l = l.
Proof.
  intros HP. induction l as [|x l IH]; [done|].
  rewrite filter_cons_True by apply HP. by rewrite IH.
Qed.

Lemma filter_if_guard criterion callback (data : list VoteRecord) :
  VotesAnalysis.filter_if criterion callback data
  = filter (λ vote, guard criterion callback vote) data.
Proof.
  unfold VotesAnalysis.filter_if, guard.
  destruct criterion as [s|]; [destruct (Js.truthy s)|]; try done;
    by rewrite filter_all.
Qed.

Lemma applyFilters_keeps filters (R : list VoteRecord) :
  VotesAnalysis.applyFilters filters R = filter (λ vote, keeps filters vote) R.
Proof.
  unfold VotesAnalysis.applyFilters. rewrite !filter_if_guard, !list_filter_filter.
  apply list_filter_iff. intros vote. unfold keeps.
  rewrite !andb_True. tauto.
Qed.

Lemma filteredVotes_applyFilters filters (R : list VoteRecord) :
  VotesKPIs.filteredVotes filters (Some R) = VotesAnalysis.applyFilters filters R.
Proof. reflexivity. Qed.

Lemma to_boolean_fmap {A} (f : A → bool) (o : option A) :
  Js.to_boolean (f <$> o) = true ↔ ∃ a, o = Some a ∧ f a = true.
Proof.
  destruct o as [a|]; simpl.
  - split; [intros H; by exists a | by intros (? & [= <-] & ?)].
  - split; [done | by intros (? & ? & ?)].
Qed.

Lemma includes_ci_contains (text : option string) (needle : string) :
  Js.to_boolean
    ((λ t, Js.includes (Js.toLowerCase t) (Js.toLowerCase needle)) <$> text) = true
  ↔ Spec.ci_contains text needle.
Proof.
  rewrite to_boolean_fmap. unfold Spec.ci_contains.
  by setoid_rewrite includes_contains.
Qed.

Lemma search_callback_matches needle vote :
  VotesAnalysis.search_callback (Js.toLowerCase needle) vote = true
  ↔ Spec.search_matches needle vote.
Proof.
  unfold VotesAnalysis.search_callback, Spec.search_matches.
  rewrite !orb_true_iff, !includes_ci_contains.
  assert (Js.to_boolean
            ((λ tags, existsb (λ tag, Js.includes (Js.toLowerCase tag)
                                        (Js.toLowerCase needle)) tags)
               <$> (agenda_items vote ≫= item_tags)) = true
          ↔ ∃ tags tag, agenda_items vote ≫= item_tags = Some tags
                        ∧ tag ∈ tags ∧ Spec.ci_contains (Some tag) needle) as ->.
  { rewrite to_boolean_fmap. split.
    - intros (tags & Htags & Hex). apply existsb_exists in Hex as (tag & Hin & Hinc).
      exists tags, tag. split; [done|]. split; [by apply list_elem_of_In|].
      exists tag. split; [done|]. by apply includes_contains.
    - intros (tags & tag & Htags & Hin & (t & [= <-] & Hc)).
      exists tags. split; [done|]. apply existsb_exists. exists tag.
      split; [by apply list_elem_of_In | by apply includes_contains]. }
  tauto.
Qed.

Lemma category_callback_matches wanted vote :
  VotesAnalysis.category_callback wanted vote = true
  ↔ Spec.category_matches wanted vote.
Proof.
  unfold VotesAnalysis.category_callback, Spec.category_matches, Spec.ci_equal.
  destruct (agenda_items vote ≫= item_category) as [c|]; simpl.
  - rewrite String.eqb_eq. split; [intros H; by exists c | by intros (? & [= <-] & ?)].
  - split; [done | by intros (? & ? & ?)].
Qed.

Lemma member_callback_matches wanted vote :
  VotesAnalysis.member_callback wanted vote = true
  ↔ Spec.member_matches wanted vote.
Proof. apply includes_ci_contains. Qed.

Lemma voteValue_callback_matches wanted vote :
  VotesAnalysis.voteValue_callback wanted vote = true
  ↔ Spec.outcome_matches wanted vote.
Proof. apply String.eqb_eq. Qed.

Lemma guard_supplied criterion callback (ok : string → Prop) vote :
  (∀ s, callback s vote = true ↔ ok s) →
  guard criterion callback vote = true ↔ (∀ s, Spec.supplied criterion s → ok s).
Proof.
  intros Hcb. unfold guard, Spec.supplied.
  destruct criterion as [s|].
  - destruct (Js.truthy s) eqn:Ht.
    + rewrite Hcb. apply truthy_nonempty in Ht.
      split; [by intros ? ? [[= <-] _] | intros H; by apply H].
    + assert (s = "") as -> by (by destruct s).
      split; [by intros _ ? [[= <-] ?] | done].
  - split; [by intros _ ? [? _] | done].
Qed.

Lemma keeps_passes filters vote :
  keeps filters vote = true ↔ Spec.passes filters vote.
Proof.
  unfold keeps, Spec.passes. rewrite !andb_true_iff.
  rewrite (guard_supplied (search filters) _ (λ s, Spec.search_matches s vote))
    by (intros; apply search_callback_matches).
  rewrite (guard_supplied (category filters) _ (λ s, Spec.category_matches s vote))
    by (intros; apply category_callback_matches).
  rewrite (guard_supplied (member filters) _ (λ s, Spec.member_matches s vote))
    by (intros; apply member_callback_matches).
  rewrite (guard_supplied (voteValue filters) _ (λ s, Spec.outcome_matches s vote))
    by (intros; apply voteValue_callback_matches).
  tauto.
Qed.

(** C2. [applyFilters] keeps exactly the records that pass every supplied,
    non-empty criterion: the search text occurs, case-insensitively, in
    the title, the member name, the category or a tag; the category is
    equal up to case; the member text occurs, case-insensitively, in the
    member name; the outcome is equal.  The result is the input with the
    other records removed, so the relative order is the input's. *)
Theorem applyFilters_keeps_passing (filters : Filters) :
  ∃ keep : VoteRecord → bool,
    (∀ r, keep r = true ↔ Spec.passes filters r)
    ∧ ∀ R : list VoteRecord,
        VotesAnalysis.applyFilters filters R = filter (λ r, keep r) R
        ∧ VotesAnalysis.applyFilters filters R `sublist_of` R
        ∧ ∀ r, r ∈ VotesAnalysis.applyFilters filters R
               ↔ r ∈ R ∧ Spec.passes filters r.
Proof.
  exists (keeps filters). split; [apply keeps_passes|].
  intros R. rewrite applyFilters_keeps. split; [done|]. split.
  - apply sublist_filter.
  - intros r. rewrite list_elem_of_filter, Is_true_true, keeps_passes. tauto.
Qed.

(** Scenario B: searching for "housing" keeps a record whose category is
    "Housing" and a record tagged "Affordable Housing", and drops a
    record that mentions it nowhere. *)
Example search_housing :
  let by_category := row YEA (Some (item "Budget 2025" (Some "Housing") [])) (Some "Jane Doe") in
  let by_tag := row NAY (Some (item "Zoning map" None ["Affordable Housing"])) (Some "Sam Lee") in
  let neither := row YEA (Some (item "Road repair" (Some "Transport") ["Paving"])) (Some "Sam Lee") in
  VotesAnalysis.applyFilters (Spec.only Spec.BySearch "housing")
                             [by_category; neither; by_tag]
  = [by_category; by_tag].
Proof. reflexivity. Qed.

(** C8. With every criterion absent or empty, [applyFilters] returns the
    record list itself: the same records in the same order. *)
Theorem applyFilters_identity (filters : Filters) (R : list VoteRecord) :
  Spec.unconstrained (search filters) →
  Spec.unconstrained (category filters) →
  Spec.unconstrained (member filters) →
  Spec.unconstrained (voteValue filters) →
  VotesAnalysis.applyFilters filters R = R.
Proof.
  unfold VotesAnalysis.applyFilters, VotesAnalysis.filter_if.
  by intros [-> | ->] [-> | ->] [-> | ->] [-> | ->].
Qed.

Lemma applyFilters_identity_witness :
  let R := [row YEA None (Some "Jane Doe");
            row ABSENT (Some (item "Budget" (Some "Finance") ["Tax"])) None] in
  VotesAnalysis.applyFilters no_filters R = R.
Proof.
  apply (applyFilters_identity no_filters); by right.
Defined.

Lemma keeps_with_criterion d1 v1 d2 v2 vote :
  d1 ≠ d2 →
  keeps (Spec.with_criterion d2 v2 (Spec.only d1 v1)) vote
  = keeps (Spec.only d1 v1) vote && keeps (Spec.only d2 v2) vote.
Proof.
  intros Hne. unfold keeps.
  destruct d1, d2; try done; simpl;
    repeat match goal with |- context [if ?b then ?x else true] =>
      destruct (if b then x else true) end; reflexivity.
Qed.

Lemma filter_keeps_twice f g (R : list VoteRecord) :
  filter (λ vote, keeps g vote) (filter (λ vote, keeps f vote) R)
  = filter (λ vote, keeps f vote && keeps g vote) R.
Proof.
  rewrite list_filter_filter. apply list_filter_iff.
  intros vote. rewrite andb_True. tauto.
Qed.

(** C9. For two different criteria dimensions, filtering by both at once
    is filtering by the first alone and then by the second alone, in
    either order, and a record is kept by both exactly when each keeps
    it.  The same holds for the filter block of [fetchStats]. *)
Theorem applyFilters_conjunction (R : list VoteRecord)
    (a b : Spec.Dimension) (va vb : string) :
  a ≠ b →
  let fa := Spec.only a va in
  let fb := Spec.only b vb in
  let fab := Spec.with_criterion b vb fa in
  VotesAnalysis.applyFilters fab R
    = VotesAnalysis.applyFilters fb (VotesAnalysis.applyFilters fa R)
  ∧ VotesAnalysis.applyFilters fab R
    = VotesAnalysis.applyFilters fa (VotesAnalysis.applyFilters fb R)
  ∧ (∀ r, r ∈ VotesAnalysis.applyFilters fab R
          ↔ r ∈ VotesAnalysis.applyFilters fa R
            ∧ r ∈ VotesAnalysis.applyFilters fb R)
  ∧ VotesKPIs.filteredVotes fab (Some R)
    = VotesKPIs.filteredVotes fb (Some (VotesKPIs.filteredVotes fa (Some R))).
Proof.
  intros Hne fa fb fab. subst fa fb fab.
  rewrite !filteredVotes_applyFilters, !applyFilters_keeps, !filter_keeps_twice.
  split; [|split; [|split]].
  - apply list_filter_iff. intros vote. by rewrite keeps_with_criterion.
  - apply list_filter_iff. intros vote.
    rewrite keeps_with_criterion, !andb_True by done. tauto.
  - intros r.
    rewrite !list_elem_of_filter, keeps_with_criterion, andb_True by done. tauto.
  - apply list_filter_iff. intros vote. by rewrite keeps_with_criterion.
Qed.

Lemma applyFilters_conjunction_witness :
  let R := [row YEA (Some (item "Budget 2025" (Some "Housing") [])) (Some "Jane Doe");
            row NAY (Some (item "Zoning map" (Some "housing") [])) (Some "Sam Lee");
            row YEA (Some (item "Road repair" (Some "Transport") [])) (Some "Jane Doe")] in
  VotesAnalysis.applyFilters
    (Spec.with_criterion Spec.ByOutcome "YEA" (Spec.only Spec.ByCategory "HOUSING")) R
  = VotesAnalysis.applyFilters (Spec.only Spec.ByOutcome "YEA")
      (VotesAnalysis.applyFilters (Spec.only Spec.ByCategory "HOUSING") R).
Proof.
  intros R.
  apply (applyFilters_conjunction R Spec.ByCategory Spec.ByOutcome "HOUSING" "YEA").
  discriminate.
Defined.

(** C10. Under a non-empty category criterion, a record whose agenda
    item is missing, or whose agenda item has no category, is never in
    the filtered list, whatever the criterion says. *)
Theorem category_filter_drops_uncategorised (filters : Filters) (wanted : string)
    (R : list VoteRecord) (r : VoteRecord) :
  Spec.supplied (category filters) wanted →
  agenda_items r = None
    ∨ (∃ agenda, agenda_items r = Some agenda ∧ item_category agenda = None) →
  (r ∉ VotesAnalysis.applyFilters filters R)
  ∧ (r ∉ VotesKPIs.filteredVotes filters (Some R)).
Proof.
  intros [Hc Hne] Hmissing.
  assert (keeps filters r = false) as Hk.
  { unfold keeps, guard. rewrite Hc.
    apply truthy_nonempty in Hne as ->.
    assert (VotesAnalysis.category_callback wanted r = false) as ->.
    { unfold VotesAnalysis.category_callback.
      by destruct Hmissing as [-> | (agenda & -> & Hcat)]; simpl; [|rewrite Hcat]. }
    by rewrite andb_false_r. }
  rewrite filteredVotes_applyFilters, applyFilters_keeps, list_elem_of_filter, Hk.
  split; by intros [? _].
Qed.

Lemma category_filter_drops_uncategorised_witness :
  let unjoined := row YEA None (Some "Jane Doe") in
  let R := [unjoined; row NAY (Some (item "Parks" (Some "Unknown") [])) None] in
  (unjoined ∉ VotesAnalysis.applyFilters (Spec.only Spec.ByCategory "Unknown") R)
  ∧ (unjoined ∉ VotesKPIs.filteredVotes (Spec.only Spec.ByCategory "Unknown")
                                        (Some R)).
Proof.
  intros unjoined R.
  apply (category_filter_drops_uncategorised
           (Spec.only Spec.ByCategory "Unknown") "Unknown" R unjoined).
  - split; [reflexivity | discriminate].
  - left. reflexivity.
Defined.

(** ** Tallies *)

Lemma tally_count v (R : list VoteRecord) : tally v R = Spec.count_outcome v R.
Proof.
  unfold tally. induction R as [|r R IH]; [done|].
  rewrite filter_cons. simpl. case_decide; simpl; by rewrite IH.
Qed.

Lemma count_outcome_partition (R : list VoteRecord) :
  Spec.count_outcome YEA R + Spec.count_outcome NAY R
  + Spec.count_outcome ABSTAIN R + Spec.count_outcome ABSENT R = length R.
Proof.
  induction R as [|r R IH]; [done|]. simpl.
  destruct (vote_value r); repeat case_decide; try done; lia.
Qed.

(** C1, as stated, fails on a list holding one ABSENT vote: the total is
    one while the tallies the code keeps add up to zero. *)
Lemma stats_tallies_skip_absent :
  let s := VotesKPIs.fetchStats no_filters (Some [row ABSENT None (Some "Jane Doe")]) in
  total s = 1 ∧ yea s + nay s + abstain s = 0.
Proof. split; reflexivity. Qed.

(** C1, amended. The total is the number of records; [yea], [nay] and
    [abstain] count exactly the records with that outcome; there is no
    tally of ABSENT votes, and the three tallies together with the number
    of ABSENT records make up the total.  The member profile computes
    the same four numbers. *)
Theorem stats_totals (R : list VoteRecord) :
  let s := VotesKPIs.calculate R in
  total s = length R
  ∧ yea s = Spec.count_outcome YEA R
  ∧ nay s = Spec.count_outcome NAY R
  ∧ abstain s = Spec.count_outcome ABSTAIN R
  ∧ yea s + nay s + abstain s + Spec.count_outcome ABSENT R = total s
  ∧ MemberProfile.stats (MemberProfile.fetchMemberData (Some R)) = s.
Proof.
  simpl. rewrite !tally_count. repeat split.
  - apply count_outcome_partition.
  - unfold VotesKPIs.calculate. by rewrite !tally_count.
Qed.

(** ** Percentages *)

(** A zero total gives a zero rate: nothing is divided. *)
Lemma rate_zero_total yea : MemberProfile.rate yea 0 = Some 0%Z.
Proof. reflexivity. Qed.

(** On no votes at all every count and the approval rate are zero. *)
Lemma stats_of_no_votes :
  MemberProfile.stats (MemberProfile.fetchMemberData (Some []))
    = {| total := 0; yea := 0; nay := 0; abstain := 0 |}
  ∧ MemberProfile.approvalRate (MemberProfile.fetchMemberData (Some [])) = Some 0%Z
  ∧ MembersList.votingStats (Some []) = MembersList.votingStatsOnError
  ∧ VotesKPIs.rendered_percent (VotesKPIs.fetchStats no_filters (Some [])) 0 = None.
Proof. repeat split. Qed.

(** [Math.round] rounds an exact half up: 12.5 becomes 13. *)
Example percent_values :
  VotesKPIs.percent 1 8 = Some 13%Z
  ∧ VotesKPIs.percent 1 3 = Some 33%Z
  ∧ VotesKPIs.percent 0 5 = Some 0%Z
  ∧ VotesKPIs.percent 5 5 = Some 100%Z
  ∧ VotesKPIs.percent 0 0 = None.
Proof. repeat split; vm_compute; reflexivity. Qed.

(** Scenario A: two YEA and one NAY give 67 percent. *)
Example approval_two_of_three :
  MemberProfile.rate 2 3 = Some 67%Z ∧ Spec.half_up_percent 2 3 = 67%Z.
Proof. split; vm_compute; reflexivity. Qed.

(** C5. A member with 23 YEA among 40 votes: the exact percentage is
    57.5, which rounds half-up to 58, but the double [(23 / 40) * 100] is
    slightly below 57.5 and [Math.round] yields 57. *)
Theorem approval_rate_of_23_in_40 :
  let votesData :=
    (replicate 23 (row YEA None (Some "Jane Doe"))
     ++ replicate 17 (row NAY None (Some "Jane Doe")))%list in
  let s := MemberProfile.fetchMemberData (Some votesData) in
  total (MemberProfile.stats s) = 40
  ∧ yea (MemberProfile.stats s) = 23
  ∧ MemberProfile.approvalRate s = Some 57%Z
  ∧ MembersList.yea_percentage (MembersList.votingStats (Some votesData)) = Some 57%Z
  ∧ VotesKPIs.rendered_percent (VotesKPIs.calculate votesData) 23 = Some (Some 57%Z)
  ∧ Spec.half_up_percent 23 40 = 58%Z.
Proof. repeat split; vm_compute; reflexivity. Qed.

(** ** The category breakdown *)

Section CategoryBreakdown.

Import MemberProfile.

Implicit Types (cats : gmap string CategoryStats) (vote : VoteRecord).

Lemma category_of_missing vote :
  agenda_items vote ≫= item_category = None
  ∨ agenda_items vote ≫= item_category = Some "" →
  category_of vote = "Unknown".
Proof. unfold category_of. by intros [-> | ->]. Qed.

Lemma category_of_present vote c :
  agenda_items vote ≫= item_category = Some c → c ≠ "" → category_of vote = c.
Proof.
  unfold category_of. intros -> Hc. simpl.
  by apply truthy_nonempty in Hc as ->.
Qed.

(** A step of the loop on a label that has an own entry, or that names
    no inherited member, writes one entry: the entry of the label,
    created at zero when new, with [total] and one counter incremented. *)
Lemma count_vote_insert cats vote :
  is_Some (cats !! category_of vote) ∨ Js.inherited (category_of vote) = false →
  count_vote cats vote
  = <[category_of vote :=
        incr_value (vote_value vote)
          (incr_total (default new_category (cats !! category_of vote)))]> cats.
Proof.
  intros Hfiled. unfold count_vote. apply map_eq. intros label.
  destruct (decide (label = category_of vote)) as [->|Hne].
  - rewrite lookup_insert_eq, !lookup_alter_eq.
    destruct (cats !! category_of vote) as [c|] eqn:Hc; simpl.
    + by rewrite Hc.
    + destruct Hfiled as [[? [=]] | ->]. by rewrite lookup_insert_eq.
  - rewrite lookup_insert_ne, !lookup_alter_ne by done.
    destruct (cats !! category_of vote); [done|].
    destruct (Js.inherited (category_of vote)); [done|].
    by rewrite lookup_insert_ne.
Qed.

(** A step on a label that names an inherited member and has no own
    entry leaves the own entries as they are. *)
Lemma count_vote_inherited cats vote :
  cats !! category_of vote = None →
  Js.inherited (category_of vote) = true →
  count_vote cats vote = cats.
Proof.
  intros Hnone Hinh. unfold count_vote. rewrite Hnone, Hinh. apply map_eq.
  intros label. destruct (decide (label = category_of vote)) as [->|Hne].
  - by rewrite !lookup_alter_eq, Hnone.
  - by rewrite !lookup_alter_ne.
Qed.

Lemma own_only_empty : own_only (∅ : gmap string CategoryStats).
Proof. intros key [c Hc]. by rewrite lookup_empty in Hc. Qed.

Lemma own_only_lookup cats key :
  own_only cats → Js.inherited key = true → cats !! key = None.
Proof.
  intros Hown Hinh. destruct (cats !! key) as [c|] eqn:Hc; [|done].
  rewrite Hown in Hinh; [done | by eexists].
Qed.

(** What a step does to a dictionary without inherited names among its
    own keys. *)
Lemma count_vote_own_only cats vote :
  own_only cats →
  count_vote cats vote
  = if Js.inherited (category_of vote) then cats
    else <[category_of vote :=
             incr_value (vote_value vote)
               (incr_total (default new_category (cats !! category_of vote)))]> cats.
Proof.
  intros Hown. destruct (Js.inherited (category_of vote)) eqn:Hinh.
  - apply count_vote_inherited; [by apply own_only_lookup | done].
  - apply count_vote_insert. by right.
Qed.

Lemma own_only_count_vote cats vote :
  own_only cats → own_only (count_vote cats vote).
Proof.
  intros Hown. rewrite count_vote_own_only by done.
  destruct (Js.inherited (category_of vote)) eqn:Hinh; [done|].
  intros key. destruct (decide (key = category_of vote)) as [->|Hne]; [done|].
  rewrite lookup_insert_ne by done. apply Hown.
Qed.

Lemma own_only_foldl cats (R : list VoteRecord) :
  own_only cats → own_only (foldl count_vote cats R).
Proof.
  revert cats. induction R as [|r R IH]; intros cats Hown; [done|].
  simpl. by apply IH, own_only_count_vote.
Qed.

Lemma cat_total_incr v c : cat_total (incr_value v (incr_total c)) = S (cat_total c).
Proof. by destruct v. Qed.

Lemma total_of_count_vote cats vote label :
  own_only cats →
  total_of (count_vote cats vote) label
  = total_of cats label
    + (if decide (label = category_of vote ∧ Js.inherited label = false)
       then 1 else 0).
Proof.
  intros Hown. rewrite count_vote_own_only by done.
  destruct (Js.inherited (category_of vote)) eqn:Hinh.
  - case_decide as Hl; [|lia]. destruct Hl as [-> Hl]. congruence.
  - unfold total_of. case_decide as Hl.
    + destruct Hl as [-> _]. rewrite lookup_insert_eq. simpl.
      rewrite cat_total_incr.
      destruct (cats !! category_of vote); simpl; lia.
    + rewrite lookup_insert_ne; [lia|]. intros <-. by apply Hl.
Qed.

Lemma sum_totals_insert_fresh cats label c :
  cats !! label = None →
  sum_totals (<[label := c]> cats) = cat_total c + sum_totals cats.
Proof.
  intros Hfresh. unfold sum_totals.
  rewrite map_fold_insert_L; [done | intros; lia | done].
Qed.

Lemma sum_totals_insert cats label c :
  sum_totals (<[label := c]> cats) + total_of cats label
  = cat_total c + sum_totals cats.
Proof.
  unfold total_of. destruct (cats !! label) as [old|] eqn:Hold; simpl.
  - rewrite <- (insert_delete_eq cats label c).
    rewrite <- (insert_delete_id cats label old) at 2 by done.
    rewrite !sum_totals_insert_fresh by apply lookup_delete_eq. lia.
  - rewrite sum_totals_insert_fresh by done. lia.
Qed.

Lemma sum_totals_count_vote cats vote :
  own_only cats →
  sum_totals (count_vote cats vote)
  = sum_totals cats + (if Js.inherited (category_of vote) then 0 else 1).
Proof.
  intros Hown. rewrite count_vote_own_only by done.
  destruct (Js.inherited (category_of vote)); [lia|].
  pose proof (sum_totals_insert cats (category_of vote)
    (incr_value (vote_value vote)
       (incr_total (default new_category (cats !! category_of vote))))) as H.
  rewrite cat_total_incr in H.
  unfold total_of in H. destruct (cats !! category_of vote); simpl in *; lia.
Qed.

Lemma is_Some_count_vote cats vote label :
  own_only cats →
  is_Some (count_vote cats vote !! label)
  ↔ is_Some (cats !! label)
    ∨ (label = category_of vote ∧ Js.inherited label = false).
Proof.
  intros Hown. rewrite count_vote_own_only by done.
  destruct (Js.inherited (category_of vote)) eqn:Hinh.
  - split; [by left | intros [? | [-> ?]]; [done | congruence]].
  - destruct (decide (label = category_of vote)) as [->|Hne].
    + rewrite lookup_insert_eq. split; [by right | by eexists].
    + rewrite lookup_insert_ne by done.
      split; [by left | by intros [? | [? _]]].
Qed.

Lemma counted_cons r (R : list VoteRecord) :
  counted (r :: R)
  = if Js.inherited (category_of r) then counted R else r :: counted R.
Proof.
  unfold counted. rewrite filter_cons.
  destruct (Js.inherited (category_of r)); by case_decide.
Qed.

Lemma total_of_foldl cats (R : list VoteRecord) label :
  own_only cats →
  total_of (foldl count_vote cats R) label
  = total_of cats label + length (labelled label (counted R)).
Proof.
  revert cats. induction R as [|r R IH]; intros cats Hown; simpl; [lia|].
  rewrite IH, total_of_count_vote, counted_cons by (by try apply own_only_count_vote).
  unfold labelled.
  destruct (Js.inherited (category_of r)) eqn:Hinh.
  - case_decide as Hl; [|lia]. destruct Hl as [-> ?]. congruence.
  - rewrite filter_cons. repeat case_decide; simpl; try lia.
    + destruct H as [-> _]. done.
    + subst label. destruct H. by split.
Qed.

Lemma sum_totals_foldl cats (R : list VoteRecord) :
  own_only cats →
  sum_totals (foldl count_vote cats R) = sum_totals cats + length (counted R).
Proof.
  revert cats. induction R as [|r R IH]; intros cats Hown; simpl; [lia|].
  rewrite IH, sum_totals_count_vote, counted_cons by (by try apply own_only_count_vote).
  destruct (Js.inherited (category_of r)); simpl; lia.
Qed.

Lemma is_Some_foldl cats (R : list VoteRecord) label :
  own_only cats →
  is_Some (foldl count_vote cats R !! label)
  ↔ is_Some (cats !! label) ∨ ∃ r, r ∈ counted R ∧ category_of r = label.
Proof.
  revert cats. induction R as [|r R IH]; intros cats Hown; simpl.
  - split; [by left | intros [?|(r & Hr & _)]; [done | by apply elem_of_nil in Hr]].
  - rewrite IH, is_Some_count_vote, counted_cons by (by try apply own_only_count_vote).
    split.
    + intros [[H | [-> Hinh]] | (r' & Hr & Hl)].
      * by left.
      * right. exists r. rewrite Hinh. split; [apply list_elem_of_here | done].
      * right. exists r'. split; [|done].
        destruct (Js.inherited (category_of r)); [done|].
        by apply list_elem_of_further.
    + intros [H | (r' & Hr & Hl)]; [by left; left |].
      destruct (Js.inherited (category_of r)) eqn:Hinh.
      * right. by exists r'.
      * apply elem_of_cons in Hr as [-> | Hr].
        -- left. right. subst label. by split.
        -- right. by exists r'.
Qed.

End CategoryBreakdown.

(** C6. A vote whose agenda item has the category "constructor" is
    counted in no group: the read [categories["constructor"]] on the
    fresh object finds the inherited member, so no entry is created, and
    the breakdown of this one vote has no entry and totals that add up to
    zero, while the vote is counted in the member's overall total. *)
Theorem breakdown_skips_inherited_label :
  let vote := row YEA (Some (item "Charter review" (Some "constructor") [])) None in
  let categories := MemberProfile.categoryBreakdown (Some [vote]) in
  MemberProfile.category_of vote = "constructor"
  ∧ categories = ∅
  ∧ MemberProfile.sum_totals categories = 0
  ∧ length [vote] = 1
  ∧ total (MemberProfile.stats (MemberProfile.fetchMemberData (Some [vote]))) = 1.
Proof. repeat split. Qed.

(** An ABSENT vote is still counted in its category's total. *)
Example breakdown_with_absent :
  let categories :=
    MemberProfile.categoryBreakdown
      (Some [row ABSENT None None;
             row YEA (Some (item "Budget" (Some "") [])) None;
             row NAY (Some (item "Parks" (Some "Parks") [])) None]) in
  categories !! "Unknown"
    = Some {| MemberProfile.cat_total := 2; MemberProfile.cat_yea := 1;
              MemberProfile.cat_nay := 0; MemberProfile.cat_abstain := 0;
              MemberProfile.cat_absent := Js.NaN |}
  ∧ MemberProfile.sum_totals categories = 3.
Proof. split; vm_compute; reflexivity. Qed.

(** ** Case studies *)

Section CaseStudies.

Import CaseStudiesList.

Implicit Types (groups : gmap string Group) (vote : VoteRecord).


Lemma extend_push g v vs : extend (push v g) vs = extend g (v :: vs).
Proof. unfold extend, push. simpl. by rewrite <- app_assoc. Qed.

Lemma add_vote_insert groups vote :
  add_vote groups vote
  = <[agendaTitle vote :=
        push (group_vote vote)
             (default (new_group vote) (groups !! agendaTitle vote))]> groups.
Proof.
  unfold add_vote. apply map_eq. intros t.
  destruct (decide (t = agendaTitle vote)) as [->|Hne].
  - rewrite lookup_insert_eq, lookup_alter_eq.
    destruct (groups !! agendaTitle vote) as [g|] eqn:Hg; simpl.
    + by rewrite Hg.
    + by rewrite lookup_insert_eq.
  - rewrite lookup_insert_ne, lookup_alter_ne by done.
    destruct (groups !! agendaTitle vote); [done|]. by rewrite lookup_insert_ne.
Qed.

(** The group found under a title after the [reduce]: the group that was
    there, or the one created by the first record with that title, with
    the votes of all records with that title pushed in their order. *)
Lemma foldl_add_vote_lookup groups (R : list VoteRecord) t :
  foldl add_vote groups R !! t
  = match groups !! t with
    | Some g => Some (extend g (group_vote <$> titled t R))
    | None =>
        match titled t R with
        | [] => None
        | first :: _ => Some (extend (new_group first) (group_vote <$> titled t R))
        end
    end.
Proof.
  revert groups. induction R as [|r R IH]; intros groups.
  - simpl. destruct (groups !! t) as [g|] eqn:Hg; [|done].
    unfold extend. simpl. rewrite app_nil_r. by destruct g.
  - simpl. rewrite IH, add_vote_insert. unfold titled. rewrite filter_cons.
    case_decide as Ht.
    + subst t. rewrite lookup_insert_eq.
      destruct (groups !! agendaTitle r); simpl; by rewrite extend_push.
    + rewrite lookup_insert_ne by done. done.
Qed.

Lemma agendaItemGroups_lookup (R : list VoteRecord) t :
  agendaItemGroups (Some R) !! t
  = match titled t R with
    | [] => None
    | first :: _ => Some (extend (new_group first) (group_vote <$> titled t R))
    end.
Proof.
  unfold agendaItemGroups. simpl. by rewrite foldl_add_vote_lookup, lookup_empty.
Qed.

Lemma studies_elem (R : list VoteRecord) study :
  study ∈ studies (Some R)
  ↔ ∃ t g, agendaItemGroups (Some R) !! t = Some g ∧ study = toCaseStudy g.
Proof.
  unfold studies. rewrite list_elem_of_fmap. split.
  - intros ([t g] & -> & Hin). apply elem_of_map_to_list in Hin. by exists t, g.
  - intros (t & g & Hg & ->). exists (t, g). split; [done|].
    by apply elem_of_map_to_list.
Qed.

Lemma studies_group (R : list VoteRecord) study :
  study ∈ studies (Some R) →
  titled (title study) R ≠ []
  ∧ votes study = group_vote <$> titled (title study) R.
Proof.
  intros (t & g & Hg & ->)%studies_elem.
  rewrite agendaItemGroups_lookup in Hg.
  destruct (titled t R) as [|first rest] eqn:Hgroup; [done|].
  injection Hg as <-.
  assert (agendaTitle first = t) as Hfirst.
  { assert (first ∈ titled t R) as Hin by (rewrite Hgroup; apply list_elem_of_here).
    unfold titled in Hin. by apply list_elem_of_filter in Hin as [? _]. }
  simpl. rewrite Hfirst, Hgroup. done.
Qed.



Lemma toCaseStudy_impact (group : Group) :
  let n := length (group_votes group) in
  (impact_level (toCaseStudy group) = high ↔ (7 ≤ n)%nat)
  ∧ (impact_level (toCaseStudy group) = medium ↔ (5 ≤ n < 7)%nat)
  ∧ (impact_level (toCaseStudy group) = low ↔ n < 5).
Proof.
  intros n.
  change (impact_level (toCaseStudy group))
    with (if (7 <=? n)%nat then high else if (5 <=? n)%nat then medium else low).
  destruct (Nat.leb_spec 7 n); [|destruct (Nat.leb_spec 5 n)];
    repeat split; intros; (done || lia).
Qed.

End CaseStudies.



(** C4. The impact level of a case study is decided by the number of
    votes filed under its title: "high" from seven votes on, "medium" for
    five or six, "low" below five. *)
Theorem case_study_impact (R : list VoteRecord) (study : CaseStudiesList.CaseStudy) :
  study ∈ CaseStudiesList.studies (Some R) →
  let count := length (titled (CaseStudiesList.title study) R) in
  length (CaseStudiesList.votes study) = count
  ∧ (CaseStudiesList.impact_level study = CaseStudiesList.high ↔ (7 ≤ count)%nat)
  ∧ (CaseStudiesList.impact_level study = CaseStudiesList.medium
     ↔ (5 ≤ count < 7)%nat)
  ∧ (CaseStudiesList.impact_level study = CaseStudiesList.low ↔ count < 5).
Proof.
  intros Hin. destruct (studies_group R study Hin) as [_ Hvotes].
  apply studies_elem in Hin as (t & g & _ & ->).
  pose proof (toCaseStudy_impact g) as Himpact.
  change (CaseStudiesList.title (CaseStudiesList.toCaseStudy g))
    with (CaseStudiesList.group_title g) in *.
  change (CaseStudiesList.votes (CaseStudiesList.toCaseStudy g))
    with (CaseStudiesList.group_votes g) in *.
  cbv zeta in Himpact. rewrite Hvotes, length_fmap in Himpact.
  cbv zeta. split; [|exact Himpact].
  by rewrite Hvotes, length_fmap.
Qed.

Lemma case_study_impact_witness :
  let budget := Some (item "Budget 2025" (Some "Finance") []) in
  let R := replicate 7 (row YEA budget (Some "Jane Doe")) in
  let study := CaseStudiesList.toCaseStudy
                 (extend (CaseStudiesList.new_group (row YEA budget (Some "Jane Doe")))
                         (CaseStudiesList.group_vote <$> R)) in
  study ∈ CaseStudiesList.studies (Some R)
  ∧ CaseStudiesList.impact_level study = CaseStudiesList.high.
Proof.
  intros budget R study.
  assert (study ∈ CaseStudiesList.studies (Some R)) as Hin.
  { vm_compute. apply list_elem_of_here. }
  split; [exact Hin|].
  apply (case_study_impact R study Hin). vm_compute. lia.
Defined.

(** The thresholds at seven, six and four votes, and the two-vote tie of
    Scenario C. *)
Example impact_at_7_6_4 :
  let budget := Some (item "Budget 2025" (Some "Finance") []) in
  let level n :=
    CaseStudiesList.impact_level
      <$> CaseStudiesList.studies (Some (replicate n (row YEA budget None))) in
  level 7 = [CaseStudiesList.high]
  ∧ level 6 = [CaseStudiesList.medium]
  ∧ level 4 = [CaseStudiesList.low].
Proof. repeat split; vm_compute; reflexivity. Qed.

Example one_yea_one_nay :
  let parks := Some (item "Parks plan" (Some "Parks") []) in
  let R := [row YEA parks (Some "Jane Doe"); row NAY parks (Some "Sam Lee")] in
  (λ s, (CaseStudiesList.title s, CaseStudiesList.outcome s,
         CaseStudiesList.impact_level s, CaseStudiesList.description s))
    <$> CaseStudiesList.studies (Some R)
  = [("Parks plan", "Denied", CaseStudiesList.low,
      "Council vote on Parks plan with 2 members participating.")].
Proof. vm_compute. reflexivity. Qed.

(** ** Records whose agenda item did not join *)






(** ** Further properties of the filter block *)

Lemma filter_none {A} (P : A → Prop) `{∀ x, Decision (P x)} (l : list A) :
  (∀ x, ¬ P x) → filter P l = [].
Proof.
  intros HP. induction l as [|x l IH]; [done|].
  by rewrite filter_cons_False by apply HP.
Qed.

Lemma filter_implied {A} (P Q : A → Prop)
    `{∀ x, Decision (P x)} `{∀ x, Decision (Q x)} (l : list A) :
  (∀ x, P x → Q x) → filter P l = filter P (filter Q l).
Proof.
  intros HPQ. rewrite list_filter_filter. apply list_filter_iff.
  intros x. split; [intros HP; split; [done | by apply HPQ] | by intros [HP _]].
Qed.

(** X1. Filtering an already filtered list with the same criteria changes
    nothing. *)
Theorem applyFilters_idempotent (filters : Filters) (R : list VoteRecord) :
  VotesAnalysis.applyFilters filters (VotesAnalysis.applyFilters filters R)
  = VotesAnalysis.applyFilters filters R.
Proof.
  rewrite !applyFilters_keeps, list_filter_filter.
  apply list_filter_iff. intros vote. tauto.
Qed.

Lemma keeps_cleared_criterion key value filters vote :
  keeps (VotesFilter.handleFilterChange key value filters) vote = true →
  keeps (VotesFilter.handleFilterChange key "" filters) vote = true.
Proof.
  unfold VotesFilter.handleFilterChange, keeps.
  repeat (destruct (String.eqb key _); simpl; [rewrite !andb_true_iff; tauto|]).
  done.
Qed.

(** X2. Setting a criterion in the filter form can only remove votes from
    the list shown with that criterion left empty, whatever the other
    criteria are; the votes that stay keep their order. *)
Theorem criterion_only_narrows (key value : string) (filters : Filters)
    (R : list VoteRecord) :
  VotesAnalysis.applyFilters (VotesFilter.handleFilterChange key value filters) R
  `sublist_of`
  VotesAnalysis.applyFilters (VotesFilter.handleFilterChange key "" filters) R.
Proof.
  rewrite !applyFilters_keeps.
  rewrite (filter_implied
             (λ vote, keeps (VotesFilter.handleFilterChange key value filters) vote)
             (λ vote, keeps (VotesFilter.handleFilterChange key "" filters) vote)).
  - apply sublist_filter.
  - intros vote. rewrite !Is_true_true. apply keeps_cleared_criterion.
Qed.

Lemma toLowerCase_empty s : Js.toLowerCase s = "" ↔ s = "".
Proof. by destruct s. Qed.

Lemma truthy_toLowerCase s1 s2 :
  Js.toLowerCase s1 = Js.toLowerCase s2 → Js.truthy s1 = Js.truthy s2.
Proof.
  intros Heq. destruct s1, s2; try done; simpl in Heq; discriminate.
Qed.

Lemma guard_up_to_case (c1 c2 : option string) callback vote :
  Js.toLowerCase <$> c1 = Js.toLowerCase <$> c2 →
  (∀ s1 s2, Js.toLowerCase s1 = Js.toLowerCase s2 →
            callback s1 vote = callback s2 vote) →
  guard c1 callback vote = guard c2 callback vote.
Proof.
  intros Heq Hcb. destruct c1 as [s1|], c2 as [s2|]; try done.
  injection Heq as Heq. unfold guard.
  rewrite (truthy_toLowerCase s1 s2 Heq), (Hcb s1 s2 Heq). done.
Qed.

(** X3. The search, category and member criteria are read up to case:
    two sets of criteria whose texts differ only in letter case, and whose
    vote values are equal, give the same list. *)
Theorem criteria_up_to_case (f g : Filters) (R : list VoteRecord) :
  Js.toLowerCase <$> search f = Js.toLowerCase <$> search g →
  Js.toLowerCase <$> category f = Js.toLowerCase <$> category g →
  Js.toLowerCase <$> member f = Js.toLowerCase <$> member g →
  voteValue f = voteValue g →
  VotesAnalysis.applyFilters f R = VotesAnalysis.applyFilters g R.
Proof.
  intros Hs Hc Hm Hv. rewrite !applyFilters_keeps.
  apply list_filter_iff. intros vote.
  assert (keeps f vote = keeps g vote) as ->; [|done].
  unfold keeps. rewrite Hv.
  rewrite (guard_up_to_case (search f) (search g)), 
          (guard_up_to_case (category f) (category g)),
          (guard_up_to_case (member f) (member g)); try done.
  - intros s1 s2 Heq. unfold VotesAnalysis.member_callback. by rewrite Heq.
  - intros s1 s2 Heq. unfold VotesAnalysis.category_callback. by rewrite Heq.
  - by intros s1 s2 ->.
Qed.

Lemma criteria_up_to_case_witness :
  let R := [row YEA (Some (item "Zoning map" (Some "Housing") [])) (Some "Jane Doe");
            row NAY (Some (item "Road repair" (Some "Transport") [])) (Some "Sam Lee")] in
  VotesAnalysis.applyFilters
    (VotesFilter.handleFilterChange "category" "HOUSING" VotesFilter.clearFilters) R
  = VotesAnalysis.applyFilters
      (VotesFilter.handleFilterChange "category" "housing" VotesFilter.clearFilters) R.
Proof.
  intros R. apply (criteria_up_to_case _ _ R); reflexivity.
Defined.

Lemma vote_value_string_inj v1 v2 :
  vote_value_string v1 = vote_value_string v2 → v1 = v2.
Proof. by destruct v1, v2. Qed.

(** X4. The vote value criterion is compared exactly: a non-empty value
    that is none of the four labels, such as a label in lower case,
    leaves no vote, and every tally of the KPI cards is then zero. *)
Theorem unknown_vote_value_matches_nothing (filters : Filters) (wanted : string)
    (R : list VoteRecord) :
  voteValue filters = Some wanted →
  wanted ≠ "" →
  (∀ v, vote_value_string v ≠ wanted) →
  VotesAnalysis.applyFilters filters R = []
  ∧ VotesKPIs.fetchStats filters (Some R)
    = {| total := 0; yea := 0; nay := 0; abstain := 0 |}.
Proof.
  intros Hv Hne Hnone.
  assert (VotesAnalysis.applyFilters filters R = []) as Hempty.
  { rewrite applyFilters_keeps. apply filter_none. intros vote.
    rewrite Is_true_true. unfold keeps, guard. rewrite Hv.
    apply truthy_nonempty in Hne as ->.
    assert (VotesAnalysis.voteValue_callback wanted vote = false) as ->.
    { apply not_true_iff_false. unfold VotesAnalysis.voteValue_callback.
      rewrite String.eqb_eq. apply Hnone. }
    by rewrite andb_false_r. }
  split; [done|].
  unfold VotesKPIs.fetchStats. by rewrite filteredVotes_applyFilters, Hempty.
Qed.

Lemma unknown_vote_value_matches_nothing_witness :
  let R := [row YEA None (Some "Jane Doe"); row NAY None (Some "Sam Lee")] in
  VotesAnalysis.applyFilters
    (VotesFilter.handleFilterChange "voteValue" "yea" VotesFilter.clearFilters) R = [].
Proof.
  intros R.
  apply (unknown_vote_value_matches_nothing
           (VotesFilter.handleFilterChange "voteValue" "yea" VotesFilter.clearFilters)
           "yea" R); [reflexivity | discriminate | by intros []].
Defined.

Lemma contains_itself s : Spec.contains s s.
Proof.
  exists "", "". rewrite append_empty.
  induction s as [|c s IH]; [done|]. by rewrite append_String, <- IH.
Qed.

Lemma ci_contains_itself s : Spec.ci_contains (Some s) s.
Proof. exists s. split; [done | apply contains_itself]. Qed.

Lemma passes_single_criterion key value vote :
  value ≠ "" →
  (key = "search" ∧ Spec.search_matches value vote)
  ∨ (key = "category" ∧ Spec.category_matches value vote)
  ∨ (key = "member" ∧ Spec.member_matches value vote)
  ∨ (key = "voteValue" ∧ Spec.outcome_matches value vote) →
  keeps (VotesFilter.handleFilterChange key value VotesFilter.clearFilters) vote
  = true.
Proof.
  intros Hne Hmatch. apply truthy_nonempty in Hne.
  destruct Hmatch as [[-> H] | [[-> H] | [[-> H] | [-> H]]]];
    unfold keeps, guard; simpl; rewrite Hne, ?andb_true_r.
  - by apply search_callback_matches.
  - by apply category_callback_matches.
  - by apply member_callback_matches.
  - by apply voteValue_callback_matches.
Qed.

(** X5. A vote is always found by its own texts: searching for its
    agenda title, its member's name, its category or one of its tags
    keeps it, and so does choosing its category, its member's name or its
    vote value in the corresponding criterion. *)
Theorem found_by_own_text (R : list VoteRecord) (r : VoteRecord) (s : string) :
  r ∈ R →
  s ≠ "" →
  let chosen key := VotesFilter.handleFilterChange key s VotesFilter.clearFilters in
  (agenda_items r ≫= item_title = Some s
   ∨ council_members r ≫= member_name = Some s
   ∨ agenda_items r ≫= item_category = Some s
   ∨ (∃ tags, agenda_items r ≫= item_tags = Some tags ∧ s ∈ tags) →
   r ∈ VotesAnalysis.applyFilters (chosen "search") R)
  ∧ (agenda_items r ≫= item_category = Some s →
     r ∈ VotesAnalysis.applyFilters (chosen "category") R)
  ∧ (council_members r ≫= member_name = Some s →
     r ∈ VotesAnalysis.applyFilters (chosen "member") R)
  ∧ (vote_value_string (vote_value r) = s →
     r ∈ VotesAnalysis.applyFilters (chosen "voteValue") R).
Proof.
  intros Hin Hne chosen. subst chosen. cbv beta.
  rewrite !applyFilters_keeps, !list_elem_of_filter, !Is_true_true.
  repeat split; try done; apply passes_single_criterion; try done.
  - left. split; [done|]. unfold Spec.search_matches.
    destruct H as [-> | [-> | [-> | (tags & Htags & Htag)]]].
    + left. apply ci_contains_itself.
    + right. left. apply ci_contains_itself.
    + right. right. left. apply ci_contains_itself.
    + right. right. right. exists tags, s. auto using ci_contains_itself.
  - right. left. split; [done|]. exists s. by split.
  - right. right. left. split; [done|]. unfold Spec.member_matches.
    rewrite H. apply ci_contains_itself.
  - right. right. right. by split.
Qed.

Lemma found_by_own_text_witness :
  let r := row ABSTAIN (Some (item "Zoning map" (Some "Housing") ["Density"]))
               (Some "Jane Doe") in
  let R := [row YEA None (Some "Sam Lee"); r] in
  r ∈ VotesAnalysis.applyFilters
        (VotesFilter.handleFilterChange "member" "Jane Doe" VotesFilter.clearFilters) R.
Proof.
  intros r R.
  apply (found_by_own_text R r "Jane Doe"); [|discriminate|reflexivity].
  apply list_elem_of_further, list_elem_of_here.
Defined.

Lemma tally_uniform v v' (l : list VoteRecord) :
  Forall (λ r, vote_value r = v) l →
  tally v' l = if decide (v' = v) then length l else 0.
Proof.
  unfold tally. induction 1 as [|r l Hr _ IH]; [by case_decide|].
  rewrite filter_cons, Hr. repeat case_decide; simpl; congruence || lia.
Qed.

(** X6. Under a vote value criterion the KPI cards hold only that value:
    the tally of the chosen value is the total and the other tallies are
    zero.  For ABSENT all three tallies are zero whatever the total. *)
Theorem stats_under_vote_value (filters : Filters) (v : VoteValue)
    (allVotes : list VoteRecord) :
  voteValue filters = Some (vote_value_string v) →
  let s := VotesKPIs.fetchStats filters (Some allVotes) in
  yea s = (if decide (YEA = v) then total s else 0)
  ∧ nay s = (if decide (NAY = v) then total s else 0)
  ∧ abstain s = (if decide (ABSTAIN = v) then total s else 0)
  ∧ total s = length (VotesAnalysis.applyFilters filters allVotes).
Proof.
  intros Hv. unfold VotesKPIs.fetchStats. rewrite filteredVotes_applyFilters.
  assert (Forall (λ r, vote_value r = v)
                 (VotesAnalysis.applyFilters filters allVotes)) as Hall.
  { apply Forall_forall. intros r Hr.
    rewrite applyFilters_keeps in Hr.
    apply list_elem_of_filter in Hr as [Hk _]. apply Is_true_true in Hk.
    unfold keeps in Hk. rewrite !andb_true_iff in Hk. destruct Hk as [_ Hk].
    unfold guard in Hk. rewrite Hv in Hk.
    assert (Js.truthy (vote_value_string v) = true) as Ht by (by destruct v).
    rewrite Ht in Hk. apply String.eqb_eq in Hk.
    by apply vote_value_string_inj. }
  simpl. by rewrite !(tally_uniform v _ _ Hall).
Qed.

Lemma stats_under_vote_value_witness :
  let R := [row YEA None (Some "Jane Doe"); row ABSENT None (Some "Sam Lee");
            row ABSENT None (Some "Ana Ruiz")] in
  let s := VotesKPIs.fetchStats
             (VotesFilter.handleFilterChange "voteValue" "ABSENT"
                VotesFilter.clearFilters) (Some R) in
  yea s = 0 ∧ nay s = 0 ∧ abstain s = 0 ∧ total s = 2.
Proof.
  intros R s.
  exact (stats_under_vote_value
           (VotesFilter.handleFilterChange "voteValue" "ABSENT"
              VotesFilter.clearFilters) ABSENT R eq_refl).
Defined.

(** X7. When the header and the KPI cards do not say "(filtered)", every
    available vote is shown and counted; so a list shorter than the
    available one always carries the marker. *)
Theorem unmarked_list_is_complete (filters : Filters) (R : list VoteRecord) :
  VotesAnalysis.isFiltered filters = false →
  VotesAnalysis.applyFilters filters R = R
  ∧ total (VotesKPIs.fetchStats filters (Some R)) = length R.
Proof.
  unfold VotesAnalysis.isFiltered. rewrite !orb_false_iff.
  intros [[[Hs Hc] Hm] Hv].
  assert (VotesAnalysis.applyFilters filters R = R) as Hid.
  { unfold VotesAnalysis.applyFilters, VotesAnalysis.filter_if.
    destruct (search filters) as [s|], (category filters) as [c|],
             (member filters) as [m|], (voteValue filters) as [v|];
      simpl in *; by rewrite ?Hs, ?Hc, ?Hm, ?Hv. }
  split; [done|].
  unfold VotesKPIs.fetchStats. by rewrite filteredVotes_applyFilters, Hid.
Qed.

Lemma unmarked_list_is_complete_witness :
  let R := [row YEA None (Some "Jane Doe"); row NAY None None] in
  VotesAnalysis.applyFilters VotesFilter.clearFilters R = R
  ∧ total (VotesKPIs.fetchStats VotesFilter.clearFilters (Some R)) = length R.
Proof.
  intros R. apply (unmarked_list_is_complete VotesFilter.clearFilters R).
  reflexivity.
Defined.

(** X8. The tag row of a vote card is absent exactly when the vote has
    no tags; otherwise it shows the first five tags in order, and the
    "+N more" marker appears exactly when tags are left out, with N the
    number left out. *)
Theorem tagRow_accounts_for_all_tags (vote : VoteRecord) (tags : list string) :
  agenda_items vote ≫= item_tags = Some tags →
  match VotesAnalysis.tagRow vote with
  | None => tags = []
  | Some (shown, more) =>
      tags ≠ []
      ∧ (shown ++ drop 5 tags)%list = tags
      ∧ length shown + default 0 more = length tags
      ∧ (more = None ↔ shown = tags)
      ∧ more ≠ Some 0
  end.
Proof.
  intros Htags. unfold VotesAnalysis.tagRow. rewrite Htags.
  destruct (Nat.ltb_spec 0 (length tags)) as [Hpos|Hzero].
  - split; [intros ->; simpl in Hpos; lia|]. split; [apply take_drop|].
    destruct (Nat.ltb_spec 5 (length tags)) as [Hmore|Hfew]; simpl.
    + rewrite length_take. split; [lia|]. split; [|intros [= ?]; lia].
      split; [done|]. intros Heq.
      assert (length (take 5 tags) = length tags) as Hlen by (by rewrite Heq).
      rewrite length_take in Hlen. lia.
    + rewrite length_take. split; [lia|]. split; [|done].
      split; [|done]. intros _. by apply take_ge.
  - destruct tags; [done | simpl in Hzero; lia].
Qed.

Lemma tagRow_accounts_for_all_tags_witness :
  let tags := ["a"; "b"; "c"; "d"; "e"; "f"; "g"] in
  let shown := ["a"; "b"; "c"; "d"; "e"] in
  tags ≠ []
  ∧ (shown ++ drop 5 tags)%list = tags
  ∧ length shown + 2 = length tags
  ∧ (Some 2 = None ↔ shown = tags)
  ∧ Some 2 ≠ Some 0.
Proof.
  intros tags shown.
  exact (tagRow_accounts_for_all_tags
           (row YEA (Some (item "Zoning map" None tags)) None) tags eq_refl).
Defined.

(** ** Further properties of the category breakdown *)

Section MapSum.

Context {A : Type} (measure : A → nat).

Implicit Types (m : gmap string A).

Lemma map_sum_insert_fresh m key x :
  m !! key = None →
  map_sum measure (<[key := x]> m) = measure x + map_sum measure m.
Proof.
  intros Hfresh. unfold map_sum.
  rewrite map_fold_insert_L; [done | intros; lia | done].
Qed.

Lemma map_sum_insert m key x :
  map_sum measure (<[key := x]> m) + from_option measure 0 (m !! key)
  = measure x + map_sum measure m.
Proof.
  destruct (m !! key) as [old|] eqn:Hold; simpl.
  - rewrite <- (insert_delete_eq m key x).
    rewrite <- (insert_delete_id m key old) at 2 by done.
    rewrite !map_sum_insert_fresh by apply lookup_delete_eq. lia.
  - rewrite map_sum_insert_fresh by done. lia.
Qed.

Lemma map_sum_to_list m :
  map_sum measure m = sum_list_with (λ entry, measure entry.2) (map_to_list m).
Proof.
  unfold map_sum. rewrite map_fold_foldr.
  induction (map_to_list m) as [|[key x] l IH]; simpl; [done | by rewrite IH].
Qed.

End MapSum.

Section CategoryCounters.

Import MemberProfile.

Implicit Types (cats : gmap string CategoryStats) (vote : VoteRecord).

Lemma foldl_count_vote_lookup cats (R : list VoteRecord) label :
  own_only cats →
  foldl count_vote cats R !! label
  = match cats !! label with
    | Some c => Some (count_all c (labelled label (counted R)))
    | None =>
        match labelled label (counted R) with
        | [] => None
        | _ :: _ => Some (count_all new_category (labelled label (counted R)))
        end
    end.
Proof.
  revert cats. induction R as [|r R IH]; intros cats Hown.
  - simpl. by destruct (cats !! label).
  - simpl. rewrite IH, count_vote_own_only, counted_cons
      by (by try apply own_only_count_vote).
    destruct (Js.inherited (category_of r)); [done|].
    unfold labelled. rewrite filter_cons. case_decide as Hl.
    + subst label. rewrite lookup_insert_eq.
      by destruct (cats !! category_of r).
    + by rewrite lookup_insert_ne.
Qed.

Lemma labelled_counted label (R : list VoteRecord) :
  labelled label (counted R)
  = if Js.inherited label then [] else labelled label R.
Proof.
  unfold labelled, counted. rewrite list_filter_filter.
  destruct (Js.inherited label) eqn:Hinh.
  - apply filter_none. intros r [<- ?]. congruence.
  - apply list_filter_iff. intros r. split; [by intros [? _]|].
    intros <-. by split.
Qed.

Lemma incr_not_Num v : (∀ n, v ≠ Js.Num n) → Js.incr v = Js.NaN.
Proof. destruct v as [| |n]; [done | done | intros H; by destruct (H n)]. Qed.

Lemma count_all_counters c (votes : list VoteRecord) :
  (∀ n, cat_absent c ≠ Js.Num n) →
  cat_total (count_all c votes) = cat_total c + length votes
  ∧ cat_yea (count_all c votes) = cat_yea c + tally YEA votes
  ∧ cat_nay (count_all c votes) = cat_nay c + tally NAY votes
  ∧ cat_abstain (count_all c votes) = cat_abstain c + tally ABSTAIN votes
  ∧ cat_absent (count_all c votes)
    = (if decide (tally ABSENT votes = 0) then cat_absent c else Js.NaN).
Proof.
  unfold count_all, tally. revert c.
  induction votes as [|r votes IH]; intros c Hc; simpl.
  - repeat split; lia.
  - destruct (IH (incr_value (vote_value r) (incr_total c)))
      as (-> & -> & -> & -> & ->).
    { destruct (vote_value r); simpl; try done.
      intros n. by rewrite incr_not_Num. }
    clear IH. rewrite !filter_cons.
    destruct (vote_value r); repeat case_decide; try done; simpl in *;
      repeat split; try lia; try done.
    by apply incr_not_Num.
Qed.

Lemma tally_partition (votes : list VoteRecord) :
  tally YEA votes + tally NAY votes + tally ABSTAIN votes + tally ABSENT votes
  = length votes.
Proof. rewrite !tally_count. apply count_outcome_partition. Qed.

End CategoryCounters.

(** X9. Every card of the category breakdown counts exactly the votes of
    its label: [yea], [nay] and [abstain] are the numbers of such votes
    with that value, [total] is at least one and exceeds their sum by the
    number of ABSENT votes, and the stray [absent] property is undefined
    when there is no ABSENT vote under the label and NaN otherwise. *)
Theorem category_counters_exact (R : list VoteRecord) (label : string)
    (c : MemberProfile.CategoryStats) :
  MemberProfile.categoryBreakdown (Some R) !! label = Some c →
  let votes := labelled label R in
  MemberProfile.cat_yea c = tally YEA votes
  ∧ MemberProfile.cat_nay c = tally NAY votes
  ∧ MemberProfile.cat_abstain c = tally ABSTAIN votes
  ∧ MemberProfile.cat_total c
    = MemberProfile.cat_yea c + MemberProfile.cat_nay c
      + MemberProfile.cat_abstain c + tally ABSENT votes
  ∧ (1 ≤ MemberProfile.cat_total c)%nat
  ∧ MemberProfile.cat_absent c
    = (if decide (tally ABSENT votes = 0) then Js.Undefined else Js.NaN).
Proof.
  unfold MemberProfile.categoryBreakdown. simpl.
  rewrite foldl_count_vote_lookup, lookup_empty, labelled_counted
    by apply own_only_empty.
  destruct (Js.inherited label); [done|].
  destruct (labelled label R) as [|first others] eqn:Hvotes; [done|].
  intros [= <-].
  destruct (count_all_counters MemberProfile.new_category (first :: others))
    as (Ht & Hy & Hn & Ha & Habsent); [done|].
  pose proof (tally_partition (first :: others)) as Hpart.
  simpl in *. rewrite Ht, Hy, Hn, Ha, Habsent.
  repeat split; try done; lia.
Qed.

Lemma category_counters_exact_witness :
  let R := [row YEA (Some (item "Budget" (Some "Finance") [])) None;
            row ABSENT (Some (item "Tax" (Some "Finance") [])) None;
            row NAY None None] in
  let c := {| MemberProfile.cat_total := 2; MemberProfile.cat_yea := 1;
              MemberProfile.cat_nay := 0; MemberProfile.cat_abstain := 0;
              MemberProfile.cat_absent := Js.NaN |} in
  MemberProfile.categoryBreakdown (Some R) !! "Finance" = Some c
  ∧ MemberProfile.cat_total c
    = MemberProfile.cat_yea c + MemberProfile.cat_nay c
      + MemberProfile.cat_abstain c + tally ABSENT (labelled "Finance" R).
Proof.
  intros R c.
  assert (MemberProfile.categoryBreakdown (Some R) !! "Finance" = Some c) as Hc
    by (vm_compute; reflexivity).
  split; [exact Hc|].
  apply (category_counters_exact R "Finance" c Hc).
Defined.

Lemma counted_all (R : list VoteRecord) :
  Forall (λ r, Js.inherited (MemberProfile.category_of r) = false) R →
  counted R = R.
Proof.
  intros Hall. unfold counted. induction Hall as [|r R Hr _ IH]; [done|].
  by rewrite filter_cons_True, IH.
Qed.

(** X21. The category breakdown counts exactly the votes whose category
    label names no member inherited from [Object.prototype]: a label has
    a card exactly when it names no such member and some vote carries
    it, the card's total is the number of votes carrying the label, and
    the totals add up to the number of counted votes.  When no vote has
    such a label, every vote is counted once and the totals add up to
    the number of votes. *)
Theorem category_breakdown_counts (R : list VoteRecord) :
  let categories := MemberProfile.categoryBreakdown (Some R) in
  (∀ label, is_Some (categories !! label)
            ↔ Js.inherited label = false
              ∧ ∃ r, r ∈ R ∧ MemberProfile.category_of r = label)
  ∧ (∀ label, MemberProfile.total_of categories label
              = if Js.inherited label then 0 else length (labelled label R))
  ∧ MemberProfile.sum_totals categories = length (counted R)
  ∧ (Forall (λ r, Js.inherited (MemberProfile.category_of r) = false) R →
     MemberProfile.sum_totals categories = length R
     ∧ ∀ label, MemberProfile.total_of categories label
                = length (labelled label R)).
Proof.
  cbv zeta. unfold MemberProfile.categoryBreakdown. simpl.
  assert (∀ label, MemberProfile.total_of
                     (foldl MemberProfile.count_vote ∅ R) label
                   = if Js.inherited label then 0 else length (labelled label R))
    as Htotal.
  { intros label. rewrite total_of_foldl, labelled_counted by apply own_only_empty.
    unfold MemberProfile.total_of. rewrite lookup_empty. simpl.
    by destruct (Js.inherited label). }
  split; [|split; [done|split]].
  - intros label. rewrite is_Some_foldl, lookup_empty by apply own_only_empty.
    unfold counted. split.
    + intros [[? [=]] | (r & Hr & Hl)].
      apply list_elem_of_filter in Hr as [Hinh Hr]. subst label.
      split; [done | by exists r].
    + intros [Hinh (r & Hr & Hl)]. right. exists r. split; [|done].
      apply list_elem_of_filter. subst label. by split.
  - by rewrite sum_totals_foldl by apply own_only_empty.
  - intros Hall. split.
    + by rewrite sum_totals_foldl, counted_all by (done || apply own_only_empty).
    + intros label. rewrite Htotal.
      pose proof (labelled_counted label R) as Hlc.
      rewrite (counted_all R Hall) in Hlc.
      destruct (Js.inherited label); [by rewrite Hlc | done].
Qed.

Lemma map_sum_count_vote (counter : MemberProfile.CategoryStats → nat)
    (delta : VoteValue → nat) cats vote :
  own_only cats →
  counter MemberProfile.new_category = 0 →
  (∀ v c, counter (MemberProfile.incr_value v (MemberProfile.incr_total c))
          = counter c + delta v) →
  map_sum counter (MemberProfile.count_vote cats vote)
  = map_sum counter cats
    + (if Js.inherited (MemberProfile.category_of vote) then 0
       else delta (vote_value vote)).
Proof.
  intros Hown Hnew Hstep. rewrite count_vote_own_only by done.
  destruct (Js.inherited (MemberProfile.category_of vote)); [lia|].
  pose proof (map_sum_insert counter cats (MemberProfile.category_of vote)
    (MemberProfile.incr_value (vote_value vote)
       (MemberProfile.incr_total
          (default MemberProfile.new_category
                   (cats !! MemberProfile.category_of vote))))) as H.
  rewrite Hstep in H.
  destruct (cats !! MemberProfile.category_of vote); simpl in *; lia.
Qed.

Lemma map_sum_foldl_count_vote (counter : MemberProfile.CategoryStats → nat)
    (delta : VoteValue → nat) cats (R : list VoteRecord) :
  own_only cats →
  counter MemberProfile.new_category = 0 →
  (∀ v c, counter (MemberProfile.incr_value v (MemberProfile.incr_total c))
          = counter c + delta v) →
  map_sum counter (foldl MemberProfile.count_vote cats R)
  = map_sum counter cats + sum_list_with (λ r, delta (vote_value r)) (counted R).
Proof.
  intros Hown Hnew Hstep. revert cats Hown.
  induction R as [|r R IH]; intros cats Hown; simpl; [lia|].
  rewrite IH, (map_sum_count_vote counter delta), counted_cons
    by (by try apply own_only_count_vote).
  destruct (Js.inherited (MemberProfile.category_of r)); simpl; lia.
Qed.

Lemma tally_sum_list v (R : list VoteRecord) :
  sum_list_with (λ r, if decide (vote_value r = v) then 1 else 0) R = tally v R.
Proof.
  unfold tally. induction R as [|r R IH]; [done|].
  rewrite filter_cons. simpl. case_decide; simpl; lia.
Qed.

(** X10. The category cards add up to the statistics of the counted
    votes, those whose category label names no member inherited from
    [Object.prototype]: the sums of the [yea], [nay] and [abstain]
    counters and of the totals are the numbers of such votes with that
    value and in all.  When every vote is counted, the cards add up to the
    member's overall Yes, No and Abstention counts and total. *)
Theorem category_cards_add_up (R : list VoteRecord) :
  let s := MemberProfile.fetchMemberData (Some R) in
  map_sum MemberProfile.cat_yea (MemberProfile.categories s)
    = tally YEA (counted R)
  ∧ map_sum MemberProfile.cat_nay (MemberProfile.categories s)
    = tally NAY (counted R)
  ∧ map_sum MemberProfile.cat_abstain (MemberProfile.categories s)
    = tally ABSTAIN (counted R)
  ∧ map_sum MemberProfile.cat_total (MemberProfile.categories s)
    = length (counted R)
  ∧ (counted R = R →
     map_sum MemberProfile.cat_yea (MemberProfile.categories s)
       = yea (MemberProfile.stats s)
     ∧ map_sum MemberProfile.cat_nay (MemberProfile.categories s)
       = nay (MemberProfile.stats s)
     ∧ map_sum MemberProfile.cat_abstain (MemberProfile.categories s)
       = abstain (MemberProfile.stats s)
     ∧ map_sum MemberProfile.cat_total (MemberProfile.categories s)
       = total (MemberProfile.stats s)).
Proof.
  cbv zeta. unfold MemberProfile.fetchMemberData, MemberProfile.categoryBreakdown.
  change (default [] (Some R)) with R.
  cbn [MemberProfile.stats MemberProfile.categories yea nay abstain total].
  assert (map_sum MemberProfile.cat_yea (foldl MemberProfile.count_vote ∅ R)
          = tally YEA (counted R)) as Hy.
  { rewrite <- tally_sum_list.
    rewrite (map_sum_foldl_count_vote MemberProfile.cat_yea
               (λ v, if decide (v = YEA) then 1 else 0));
      [|apply own_only_empty | done | by intros [] c; simpl; lia].
    unfold map_sum. by rewrite map_fold_empty. }
  assert (map_sum MemberProfile.cat_nay (foldl MemberProfile.count_vote ∅ R)
          = tally NAY (counted R)) as Hn.
  { rewrite <- tally_sum_list.
    rewrite (map_sum_foldl_count_vote MemberProfile.cat_nay
               (λ v, if decide (v = NAY) then 1 else 0));
      [|apply own_only_empty | done | by intros [] c; simpl; lia].
    unfold map_sum. by rewrite map_fold_empty. }
  assert (map_sum MemberProfile.cat_abstain (foldl MemberProfile.count_vote ∅ R)
          = tally ABSTAIN (counted R)) as Ha.
  { rewrite <- tally_sum_list.
    rewrite (map_sum_foldl_count_vote MemberProfile.cat_abstain
               (λ v, if decide (v = ABSTAIN) then 1 else 0));
      [|apply own_only_empty | done | by intros [] c; simpl; lia].
    unfold map_sum. by rewrite map_fold_empty. }
  assert (map_sum MemberProfile.cat_total (foldl MemberProfile.count_vote ∅ R)
          = length (counted R)) as Ht.
  { rewrite (map_sum_foldl_count_vote MemberProfile.cat_total (λ _, 1));
      [|apply own_only_empty | done | by intros [] c; simpl; lia].
    unfold map_sum. rewrite map_fold_empty. simpl.
    induction (counted R) as [|r l IH]; simpl; [done | f_equal; exact IH]. }
  rewrite Hy, Hn, Ha, Ht. do 4 (split; [done|]). by intros ->.
Qed.

(** ** The order of the category cards *)

Section SortByTotal.

Import MemberProfile.

Implicit Types (entry : string * CategoryStats) (entries : list (string * CategoryStats)).


Lemma insert_by_total_perm entry entries :
  insert_by_total entry entries ≡ₚ entry :: entries.
Proof.
  induction entries as [|other rest IH]; simpl; [done|].
  destruct (cat_total other.2 <=? cat_total entry.2)%nat; [done|].
  by rewrite IH, Permutation_swap.
Qed.

Lemma insert_by_total_sorted entry entries :
  StronglySorted (λ a b, (cat_total b.2 ≤ cat_total a.2)%nat) entries →
  StronglySorted (λ a b, (cat_total b.2 ≤ cat_total a.2)%nat)
                 (insert_by_total entry entries).
Proof.
  induction 1 as [|other rest Hrest IH Hall]; simpl.
  - repeat constructor.
  - destruct (Nat.leb_spec (cat_total other.2) (cat_total entry.2)) as [Hle|Hgt].
    + constructor; [by constructor|]. constructor; [done|].
      eapply Forall_impl; [exact Hall|]. simpl. intros ? ?. lia.
    + constructor; [done|].
      rewrite insert_by_total_perm. constructor; [|done].
      simpl. lia.
Qed.

Lemma insert_by_total_filter entry entries n :
  filter (λ e, cat_total e.2 = n) (insert_by_total entry entries)
  = filter (λ e, cat_total e.2 = n) (entry :: entries).
Proof.
  induction entries as [|other rest IH]; simpl; [done|].
  destruct (Nat.leb_spec (cat_total other.2) (cat_total entry.2)) as [Hle|Hgt];
    [done|].
  rewrite (filter_cons _ other), IH, !filter_cons.
  repeat case_decide; try done; lia.
Qed.

(** X11. The category cards are shown by descending total; the sort only
    reorders the entries, and entries with equal totals stay in the order
    in which they were listed. *)
Theorem sortByTotal_descending_stable entries :
  StronglySorted (λ a b, (cat_total b.2 ≤ cat_total a.2)%nat) (sortByTotal entries)
  ∧ sortByTotal entries ≡ₚ entries
  ∧ ∀ n, filter (λ e, cat_total e.2 = n) (sortByTotal entries)
         = filter (λ e, cat_total e.2 = n) entries.
Proof.
  unfold sortByTotal. induction entries as [|entry entries (IHs & IHp & IHf)]; simpl.
  - repeat split; constructor.
  - split; [by apply insert_by_total_sorted|]. split.
    + by rewrite insert_by_total_perm, IHp.
    + intros n. by rewrite insert_by_total_filter, !filter_cons, IHf.
Qed.

End SortByTotal.

(** Three cards, two of them with equal totals. *)
Example sortByTotal_cards :
  let card n := {| MemberProfile.cat_total := n; MemberProfile.cat_yea := n;
                   MemberProfile.cat_nay := 0; MemberProfile.cat_abstain := 0;
                   MemberProfile.cat_absent := Js.Undefined |} in
  MemberProfile.sortByTotal [("parks", card 2); ("housing", card 5); ("budget", card 2)]
  = [("housing", card 5); ("parks", card 2); ("budget", card 2)].
Proof. reflexivity. Qed.

(** ** Further properties of the case studies *)

Section CaseStudyGroups.

Import CaseStudiesList.

Implicit Types (groups : gmap string Group) (vote : VoteRecord).

Lemma group_of_title (R : list VoteRecord) t g :
  agendaItemGroups (Some R) !! t = Some g →
  ∃ first others,
    titled t R = first :: others
    ∧ agendaTitle first = t
    ∧ g = extend (new_group first) (group_vote <$> first :: others).
Proof.
  rewrite agendaItemGroups_lookup.
  destruct (titled t R) as [|first others] eqn:Hgroup; [done|].
  intros [= <-]. exists first, others. split; [done|]. split; [|done].
  assert (first ∈ titled t R) as Hin by (rewrite Hgroup; apply list_elem_of_here).
  unfold titled in Hin. by apply list_elem_of_filter in Hin as [? _].
Qed.

Lemma titled_nonempty (R : list VoteRecord) t :
  titled t R ≠ [] ↔ ∃ r, r ∈ R ∧ agendaTitle r = t.
Proof.
  unfold titled. split.
  - destruct (filter _ R) as [|r rest] eqn:Hf; [done|]. intros _.
    assert (r ∈ filter (λ r, agendaTitle r = t) R) as Hin
      by (rewrite Hf; apply list_elem_of_here).
    apply list_elem_of_filter in Hin as [? ?]. by exists r.
  - intros (r & Hin & Ht) Hnil.
    assert (r ∈ filter (λ r, agendaTitle r = t) R) as Hr
      by (by apply list_elem_of_filter).
    rewrite Hnil in Hr. by apply elem_of_nil in Hr.
Qed.

Lemma votes_sum_add_vote groups vote :
  map_sum (λ g, length (group_votes g)) (add_vote groups vote)
  = S (map_sum (λ g, length (group_votes g)) groups).
Proof.
  pose proof (map_sum_insert (λ g, length (group_votes g)) groups (agendaTitle vote)
    (push (group_vote vote)
          (default (new_group vote) (groups !! agendaTitle vote)))) as H.
  rewrite <- add_vote_insert in H. simpl in H. rewrite length_app in H.
  destruct (groups !! agendaTitle vote); simpl in H; lia.
Qed.

Lemma votes_sum_foldl groups (R : list VoteRecord) :
  map_sum (λ g, length (group_votes g)) (foldl add_vote groups R)
  = map_sum (λ g, length (group_votes g)) groups + length R.
Proof.
  revert groups. induction R as [|r R IH]; intros groups; simpl; [lia|].
  rewrite IH, votes_sum_add_vote. lia.
Qed.

Lemma agendaTitle_nonempty vote : agendaTitle vote ≠ "".
Proof.
  unfold agendaTitle, Js.or_default.
  destruct (agenda_items vote ≫= item_title) as [t|]; [|done].
  destruct (Js.truthy t) eqn:Ht; [by apply truthy_nonempty | done].
Qed.

End CaseStudyGroups.

Lemma sum_list_with_list_fmap {A B} (f : B → nat) (g : A → B) (l : list A) :
  sum_list_with f (g <$> l) = sum_list_with (λ x, f (g x)) l.
Proof. induction l as [|x l IH]; simpl; [done | f_equal; exact IH]. Qed.

(** X12. When no vote row has an agenda title naming a member inherited
    from [Object.prototype], grouping loses and duplicates no vote: the
    numbers of votes listed in the case studies add up to the number of
    vote rows. *)
Theorem case_studies_partition_votes (R : list VoteRecord) :
  Forall (λ r, Js.inherited (CaseStudiesList.agendaTitle r) = false) R →
  sum_list_with (λ study, length (CaseStudiesList.votes study))
                (CaseStudiesList.studies (Some R))
  = length R.
Proof.
  intros _. unfold CaseStudiesList.studies.
  transitivity (map_sum (λ g, length (CaseStudiesList.group_votes g))
                        (CaseStudiesList.agendaItemGroups (Some R))).
  - by rewrite map_sum_to_list, sum_list_with_list_fmap.
  - unfold CaseStudiesList.agendaItemGroups. simpl.
    rewrite votes_sum_foldl. unfold map_sum. by rewrite map_fold_empty.
Qed.

Lemma case_studies_partition_votes_witness :
  let zoning := Some (item "Zoning map" (Some "Housing") []) in
  let R := [row YEA zoning (Some "Jane Doe"); row NAY None (Some "Sam Lee");
            row ABSENT zoning (Some "Ana Ruiz")] in
  sum_list_with (λ study, length (CaseStudiesList.votes study))
                (CaseStudiesList.studies (Some R))
  = 3.
Proof.
  intros zoning R. apply (case_studies_partition_votes R).
  repeat constructor.
Defined.

(** X13. Case studies are keyed by agenda title: the ids used as list
    keys are pairwise different, every id is its study's title, and every
    study's title is carried by some vote row (with "Unknown" for a row
    without a title).  When no row's title names a member inherited from
    [Object.prototype], every row's title has its study. *)
Theorem case_study_ids_unique (R : list VoteRecord) :
  NoDup (CaseStudiesList.study_id <$> CaseStudiesList.studies (Some R))
  ∧ (∀ study, study ∈ CaseStudiesList.studies (Some R) →
              CaseStudiesList.study_id study = CaseStudiesList.title study
              ∧ ∃ r, r ∈ R
                     ∧ CaseStudiesList.agendaTitle r = CaseStudiesList.title study)
  ∧ (Forall (λ r, Js.inherited (CaseStudiesList.agendaTitle r) = false) R →
     ∀ r, r ∈ R →
          CaseStudiesList.agendaTitle r
          ∈ (CaseStudiesList.title <$> CaseStudiesList.studies (Some R))).
Proof.
  split; [|split].
  - unfold CaseStudiesList.studies. rewrite <- list_fmap_compose.
    assert ((CaseStudiesList.study_id ∘ (λ entry, CaseStudiesList.toCaseStudy entry.2))
              <$> map_to_list (CaseStudiesList.agendaItemGroups (Some R))
            = (map_to_list (CaseStudiesList.agendaItemGroups (Some R))).*1) as ->.
    { apply list_fmap_ext. intros i [t g] Hlookup. simpl.
      assert ((t, g) ∈ map_to_list (CaseStudiesList.agendaItemGroups (Some R)))
        as Hin by (by eapply list_elem_of_lookup_2).
      apply elem_of_map_to_list in Hin.
      by destruct (group_of_title R t g Hin) as (first & others & _ & Ht & ->). }
    apply NoDup_fst_map_to_list.
  - intros study Hin. split.
    + by apply studies_elem in Hin as (t & g & _ & ->).
    + apply titled_nonempty. by apply studies_group in Hin as [? _].
  - intros _ r Hr. apply list_elem_of_fmap.
    assert (titled (CaseStudiesList.agendaTitle r) R ≠ []) as Hne
      by (apply titled_nonempty; by exists r).
    destruct (titled (CaseStudiesList.agendaTitle r) R)
      as [|first others] eqn:Hgroup; [done|].
    exists (CaseStudiesList.toCaseStudy
              (extend (CaseStudiesList.new_group first)
                      (CaseStudiesList.group_vote <$> first :: others))).
    assert (CaseStudiesList.agendaTitle first = CaseStudiesList.agendaTitle r)
      as Hfirst.
    { assert (first ∈ titled (CaseStudiesList.agendaTitle r) R) as Hin
        by (rewrite Hgroup; apply list_elem_of_here).
      unfold titled in Hin. by apply list_elem_of_filter in Hin as [? _]. }
    split; [done|]. apply studies_elem.
    exists (CaseStudiesList.agendaTitle r). eexists. split; [|done].
    by rewrite agendaItemGroups_lookup, Hgroup.
Qed.

(** X14. A case study takes its category, date and tags from the first
    vote row carrying its title; later rows with the same title add
    their votes, in order, but change none of the three. *)
Theorem case_study_first_row_decides (R : list VoteRecord)
    (study : CaseStudiesList.CaseStudy) :
  study ∈ CaseStudiesList.studies (Some R) →
  ∃ first others,
    titled (CaseStudiesList.title study) R = first :: others
    ∧ CaseStudiesList.study_category study
      = Js.or_default (agenda_items first ≫= item_category) "General"
    ∧ CaseStudiesList.date study
      = Js.or_else ((agenda_items first ≫= item_meetings) ≫= meeting_date)
                   (created_at first)
    ∧ CaseStudiesList.tags study = default [] (agenda_items first ≫= item_tags)
    ∧ CaseStudiesList.votes study
      = CaseStudiesList.group_vote <$> first :: others.
Proof.
  intros (t & g & Hg & ->)%studies_elem.
  destruct (group_of_title R t g Hg) as (first & others & Hgroup & Ht & ->).
  exists first, others. simpl. by rewrite Ht.
Qed.

Lemma case_study_first_row_decides_witness :
  let first := row YEA (Some (item "Zoning map" (Some "Housing") ["Density"]))
                   (Some "Jane Doe") in
  let later := row NAY (Some (item "Zoning map" (Some "Parks") ["Trees"]))
                   (Some "Sam Lee") in
  let study := CaseStudiesList.toCaseStudy
                 (extend (CaseStudiesList.new_group first)
                         (CaseStudiesList.group_vote <$> [first; later])) in
  study ∈ CaseStudiesList.studies (Some [first; later])
  ∧ ∃ first' others,
      titled "Zoning map" [first; later] = first' :: others
      ∧ CaseStudiesList.study_category study
        = Js.or_default (agenda_items first' ≫= item_category) "General"
      ∧ CaseStudiesList.date study
        = Js.or_else ((agenda_items first' ≫= item_meetings) ≫= meeting_date)
                     (created_at first')
      ∧ CaseStudiesList.tags study = default [] (agenda_items first' ≫= item_tags)
      ∧ CaseStudiesList.votes study
        = CaseStudiesList.group_vote <$> first' :: others.
Proof.
  intros first later study.
  assert (study ∈ CaseStudiesList.studies (Some [first; later])) as Hin.
  { vm_compute. apply list_elem_of_here. }
  split; [exact Hin|].
  exact (case_study_first_row_decides [first; later] study Hin).
Defined.

(** X15. No case study is empty or nameless: it lists at least one
    vote, its title is not the empty string, and every listed vote has a
    member name that is not the empty string. *)
Theorem case_study_never_empty (R : list VoteRecord)
    (study : CaseStudiesList.CaseStudy) :
  study ∈ CaseStudiesList.studies (Some R) →
  (1 ≤ length (CaseStudiesList.votes study))%nat
  ∧ CaseStudiesList.title study ≠ ""
  ∧ ∀ v, v ∈ CaseStudiesList.votes study → CaseStudiesList.gv_member_name v ≠ "".
Proof.
  intros (t & g & Hg & ->)%studies_elem.
  destruct (group_of_title R t g Hg) as (first & others & Hgroup & Ht & ->).
  split; [simpl; lia|]. split.
  - simpl. apply agendaTitle_nonempty.
  - intros v Hv.
    change (v ∈ CaseStudiesList.group_vote <$> first :: others) in Hv.
    apply list_elem_of_fmap in Hv as (r & -> & _).
    unfold CaseStudiesList.group_vote, Js.or_default. simpl.
    destruct (council_members r ≫= member_name) as [n|]; [|done].
    destruct (Js.truthy n) eqn:Hn; [by apply truthy_nonempty | done].
Qed.

Lemma case_study_never_empty_witness :
  let R := [row YEA None None] in
  let study := CaseStudiesList.toCaseStudy
                 (extend (CaseStudiesList.new_group (row YEA None None))
                         (CaseStudiesList.group_vote <$> R)) in
  study ∈ CaseStudiesList.studies (Some R)
  ∧ CaseStudiesList.title study ≠ "".
Proof.
  intros R study.
  assert (study ∈ CaseStudiesList.studies (Some R)) as Hin.
  { vm_compute. apply list_elem_of_here. }
  split; [exact Hin|].
  apply (case_study_never_empty R study Hin).
Defined.

(** ** The member cards *)

Lemma length_append a b :
  String.length (a +:+ b) = String.length a + String.length b.
Proof.
  induction a as [|c a IH]; [done|].
  rewrite append_String. simpl. by rewrite IH.
Qed.

Lemma length_substring_0 n s :
  String.length (String.substring 0 n s) = (n `min` String.length s)%nat.
Proof.
  revert n. induction s as [|c s IH]; intros [|n]; simpl; try done.
  by rewrite IH.
Qed.

Lemma substring_0_all n s :
  (String.length s ≤ n)%nat → String.substring 0 n s = s.
Proof.
  revert n. induction s as [|c s IH]; intros [|n]; simpl; try done; [lia|].
  intros Hle. rewrite IH; [done | lia].
Qed.

Lemma truncateText_cases (text : string) (maxLength : nat) :
  ((String.length text ≤ maxLength)%nat →
   MemberProfileCard.truncateText text maxLength = text)
  ∧ ((maxLength < String.length text)%nat →
     MemberProfileCard.truncateText text maxLength
     = String.substring 0 maxLength text +:+ "..."
     ∧ String.length (MemberProfileCard.truncateText text maxLength)
       = maxLength + 3).
Proof.
  unfold MemberProfileCard.truncateText.
  destruct (Nat.leb_spec (String.length text) maxLength) as [Hle|Hgt].
  - split; [done | lia].
  - split; [lia|]. intros _. split; [done|].
    rewrite length_append, length_substring_0. simpl. lia.
Qed.

Lemma append_empty_r s : s +:+ "" = s.
Proof.
  induction s as [|c s IH]; [done|]. by rewrite append_String, IH.
Qed.

(** X16. [truncateText] returns a text of at most [maxLength] characters
    unchanged.  A longer text becomes its first [maxLength] characters
    followed by three dots, so the result has [maxLength + 3] characters,
    which is more than the text had when it exceeded the limit by one or
    two characters. *)
Theorem truncateText_shape (text : string) (maxLength : nat) :
  ((String.length text ≤ maxLength)%nat →
   MemberProfileCard.truncateText text maxLength = text)
  ∧ ((maxLength < String.length text)%nat →
     String.length (MemberProfileCard.truncateText text maxLength) = maxLength + 3)
  ∧ String.prefix (String.substring 0 maxLength text)
                  (MemberProfileCard.truncateText text maxLength) = true
  ∧ (String.length (MemberProfileCard.truncateText text maxLength)
     ≤ String.length text + 2)%nat.
Proof.
  destruct (truncateText_cases text maxLength) as [Hshort Hlong].
  destruct (Nat.le_gt_cases (String.length text) maxLength) as [Hle|Hgt].
  - rewrite (Hshort Hle). split; [done|]. split; [lia|]. split; [|lia].
    rewrite substring_0_all by done. apply prefix_append.
    exists "". by rewrite append_empty_r.
  - destruct (Hlong Hgt) as [Heq Hlen]. split; [lia|]. split; [done|].
    split; [|lia]. rewrite Heq. apply prefix_append. by exists "...".
Qed.

(** X17. When no "Read More" button is offered the paragraph is the whole
    biography in either state of the card; when it is offered, the
    collapsed paragraph has 123 characters and the expanded one is the
    whole biography. *)
Theorem bio_toggle (bio : string) :
  (MemberProfileCard.showsToggle bio = false →
   ∀ showFullBio, MemberProfileCard.bioText showFullBio bio = bio)
  ∧ (MemberProfileCard.showsToggle bio = true →
     String.length (MemberProfileCard.bioText false bio) = 123
     ∧ MemberProfileCard.bioText true bio = bio).
Proof.
  unfold MemberProfileCard.showsToggle, MemberProfileCard.bioText,
    MemberProfileCard.defaultMaxLength.
  destruct (truncateText_cases bio 120) as [Hshort Hlong].
  split.
  - intros Hoff%Nat.ltb_ge [|]; [done | by apply Hshort].
  - intros Hon%Nat.ltb_lt. split; [by apply Hlong | done].
Qed.

Lemma or_default_nonempty o d : d ≠ "" → Js.or_default o d ≠ "".
Proof.
  intros Hd. unfold Js.or_default. destruct o as [s|]; [|done].
  destruct (Js.truthy s) eqn:Hs; [by apply truthy_nonempty | done].
Qed.

(** X18. The recent votes of a member are made from the first five vote
    rows, in their order and with their ids and values; fewer rows give
    fewer entries and no rows, or no data at all, give none.  No entry
    has an empty title, date or category. *)
Theorem recentVotes_first_five (votes : list VoteRecord) :
  let recent := MembersList.recentVotes (Some votes) in
  length recent = (5 `min` length votes)%nat
  ∧ MembersList.recent_id <$> recent = take 5 (id <$> votes)
  ∧ MembersList.recent_vote_value <$> recent = take 5 (vote_value <$> votes)
  ∧ Forall (λ entry, MembersList.agenda_item_title entry ≠ ""
                     ∧ MembersList.date entry ≠ ""
                     ∧ MembersList.recent_category entry ≠ "") recent
  ∧ MembersList.recentVotes None = [].
Proof.
  unfold MembersList.recentVotes. simpl.
  split; [by rewrite length_fmap, length_take|].
  split; [by rewrite <- list_fmap_compose, fmap_take|].
  split; [by rewrite <- list_fmap_compose, fmap_take|].
  split; [|done].
  apply Forall_fmap, Forall_forall. intros r _. simpl.
  repeat split; by apply or_default_nonempty.
Qed.

(** ** The filter form *)

Lemma eqb_false_ne a b : String.eqb a b = false ↔ a ≠ b.
Proof. by rewrite <- not_true_iff_false, String.eqb_eq. Qed.

(** X19. In the filter form the last value entered for a criterion
    wins, changes to different criteria can be made in either order, and
    emptying all four criteria by hand gives the state of "Clear
    Filters", under which the whole list is shown. *)
Theorem handleFilterChange_updates :
  (∀ key v1 v2 filters,
     VotesFilter.handleFilterChange key v2
       (VotesFilter.handleFilterChange key v1 filters)
     = VotesFilter.handleFilterChange key v2 filters)
  ∧ (∀ key1 key2 v1 v2 filters, key1 ≠ key2 →
       VotesFilter.handleFilterChange key1 v1
         (VotesFilter.handleFilterChange key2 v2 filters)
       = VotesFilter.handleFilterChange key2 v2
           (VotesFilter.handleFilterChange key1 v1 filters))
  ∧ (∀ filters,
       VotesFilter.handleFilterChange "search" ""
         (VotesFilter.handleFilterChange "category" ""
            (VotesFilter.handleFilterChange "member" ""
               (VotesFilter.handleFilterChange "voteValue" "" filters)))
       = VotesFilter.clearFilters)
  ∧ (∀ R, VotesAnalysis.applyFilters VotesFilter.clearFilters R = R).
Proof.
  split; [|split; [|split]].
  - intros key v1 v2 filters. unfold VotesFilter.handleFilterChange.
    repeat (destruct (String.eqb key _); [done|]). done.
  - intros key1 key2 v1 v2 filters Hne. unfold VotesFilter.handleFilterChange.
    destruct (String.eqb_spec key1 "search"), (String.eqb_spec key2 "search"),
             (String.eqb_spec key1 "category"), (String.eqb_spec key2 "category"),
             (String.eqb_spec key1 "member"), (String.eqb_spec key2 "member"),
             (String.eqb_spec key1 "voteValue"), (String.eqb_spec key2 "voteValue");
      simpl; congruence.
  - done.
  - done.
Qed.

(** ** How far the approval rate is from the exact percentage *)

Lemma rates_close_upto_sound (bound yea total : nat) :
  rates_close_upto bound = true →
  (yea ≤ total)%nat → (0 < total)%nat → (total ≤ bound)%nat →
  rate_close yea total = true.
Proof.
  unfold rates_close_upto. intros Hall Hyea Hpos Hbound.
  rewrite forallb_forall in Hall.
  assert (In total (seq 1 bound)) as Htotal by (apply in_seq; lia).
  specialize (Hall total Htotal). rewrite forallb_forall in Hall.
  apply Hall, in_seq. lia.
Qed.

Lemma rate_close_spec (yea total : nat) :
  rate_close yea total = true →
  ∃ p, MemberProfile.rate yea total = Some p
       ∧ (p = Spec.half_up_percent yea total
          ∨ p = (Spec.half_up_percent yea total - 1)%Z)
       ∧ (0 ≤ p ≤ 100)%Z.
Proof.
  unfold rate_close.
  destruct (MemberProfile.rate yea total) as [p|]; [|done].
  intros Hall. exists p. split; [done|].
  apply andb_true_iff in Hall as [Hall Hle].
  apply andb_true_iff in Hall as [Hclose Hge].
  apply orb_true_iff in Hclose. rewrite !Z.eqb_eq in Hclose.
  apply Z.leb_le in Hle, Hge. split; [done | lia].
Qed.

Lemma rates_close_upto_200 : rates_close_upto 200 = true.
Proof. vm_compute. reflexivity. Qed.

(** X20. For a member with at most 200 votes the approval rate is a
    whole number between 0 and 100, and it is the half-up rounded exact
    percentage or one point below it, never above. *)
Theorem rate_within_one_point (yea total : nat) :
  (yea ≤ total)%nat → (0 < total)%nat → (total ≤ 200)%nat →
  ∃ p, MemberProfile.rate yea total = Some p
       ∧ (p = Spec.half_up_percent yea total
          ∨ p = (Spec.half_up_percent yea total - 1)%Z)
       ∧ (0 ≤ p ≤ 100)%Z.
Proof.
  intros Hyea Hpos Hbound. apply rate_close_spec.
  exact (rates_close_upto_sound 200 yea total rates_close_upto_200
           Hyea Hpos Hbound).
Qed.

Lemma rate_within_one_point_witness :
  ∃ p, MemberProfile.rate 23 40 = Some p
       ∧ (p = Spec.half_up_percent 23 40
          ∨ p = (Spec.half_up_percent 23 40 - 1)%Z)
       ∧ (0 ≤ p ≤ 100)%Z.
Proof.
  apply (rate_within_one_point 23 40); lia.
Defined.
